(** * Dice Roll Simulator: a shallow embedding of [dice.py]

    The program is a tkinter application.  Its class [DiceSimulator]
    owns a roll history, a table of face images and three widgets; a
    roll is driven by the event loop through [after] callbacks.  The
    embedding keeps the instance fields, the pending [after] callbacks,
    the state of the random generator and the sequence of calls made to
    the outside (tkinter, pygame, stdout) in one record, and writes each
    method as a computation in a state-and-exception monad. *)

From Stdlib Require Import ZArith List String Ascii DecimalString Lia.
From stdpp Require Import base gmap.
Import ListNotations.

Local Open Scope string_scope.
Local Open Scope list_scope.
Local Open Scope Z_scope.

(** ** Values handed to and received from the libraries *)

(** [tk.PhotoImage(file=...)] and [pygame.mixer.Sound(...)]: an object
    created from a file is identified by the file it was read from. *)
Record PhotoImage := mkPhotoImage { image_file : string }.
Record Sound := mkSound { sound_file : string }.

(** The [state] option of a ttk widget, as the program uses it. *)
Inductive widget_state := normal | disabled.

Definition widget_state_eqb (a b : widget_state) : bool :=
  match a, b with
  | normal, normal | disabled, disabled => true
  | _, _ => false
  end.

(** Exceptions the program raises or catches. *)
Inductive exn :=
| TclError
| PygameError (msg : string)
| FileNotFoundError (file : string)
| KeyError (key : Z)
| SystemExit.

(** The closure [lambda: self.animate_roll(final_face, count - 1)]:
    its two captured variables. *)
Record callback := mkCallback { cb_final_face : Z; cb_count : Z }.

(** Calls that leave the program, in the order they are made. *)
Inductive call :=
| Print (text : string)
| MixerInit
| MixerSound (file : string)
| MixerQuit
| TkDestroy
| SoundPlay (snd : Sound)
| DiceLabelConfig (image : PhotoImage)
| HistoryLabelConfig (text : string)
| RollButtonConfig (state : widget_state)
| After (ms : Z) (cb : callback)
| ReportCallbackException (e : exn).

(** What the program finds around it: whether the mixer can be
    initialised ([Some msg] is the message of the [pygame.error] that
    [pygame.mixer.init] raises, as it does without an audio device),
    whether the sound file is there (pygame raises FileNotFoundError
    when it is not), whether a file that is there loads ([Some msg] is
    the message of the [pygame.error] raised for a file it cannot
    decode), which image files are readable, and the raw words the
    random generator will deliver. *)
Record Env := mkEnv {
  mixer_error : option string;
  sound_missing : bool;
  sound_error : option string;
  image_readable : string -> bool;
  entropy : nat -> Z
}.

Record World := mkWorld {
  env : Env;
  cursor : nat;                       (* draws made from [entropy] so far *)
  roll_sound : option Sound;          (* self.roll_sound, None as in Python *)
  history : list Z;                   (* self.history *)
  dice_images : gmap Z PhotoImage;    (* self.dice_images *)
  dice_label : option PhotoImage;     (* image option of self.dice_label *)
  roll_button : widget_state;         (* state option of self.roll_button *)
  history_label : string;             (* text option of self.history_label *)
  timers : list callback;             (* pending [after] callbacks, oldest first *)
  alive : bool;                       (* the window has not been destroyed *)
  out : list call                     (* calls made so far, oldest first *)
}.

(** The world a fresh process starts in: nothing loaded, the widgets
    with Tk's defaults. *)
Definition boot (e : Env) : World :=
  {| env := e; cursor := 0%nat; roll_sound := None; history := [];
     dice_images := ∅; dice_label := None; roll_button := normal;
     history_label := ""; timers := []; alive := true; out := [] |}.

(** ** Field updates *)

Definition set_cursor (n : nat) (w : World) : World :=
  mkWorld (env w) n (roll_sound w) (history w) (dice_images w) (dice_label w)
          (roll_button w) (history_label w) (timers w) (alive w) (out w).
Definition set_roll_sound (s : option Sound) (w : World) : World :=
  mkWorld (env w) (cursor w) s (history w) (dice_images w) (dice_label w)
          (roll_button w) (history_label w) (timers w) (alive w) (out w).
Definition set_history (h : list Z) (w : World) : World :=
  mkWorld (env w) (cursor w) (roll_sound w) h (dice_images w) (dice_label w)
          (roll_button w) (history_label w) (timers w) (alive w) (out w).
Definition set_dice_images (m : gmap Z PhotoImage) (w : World) : World :=
  mkWorld (env w) (cursor w) (roll_sound w) (history w) m (dice_label w)
          (roll_button w) (history_label w) (timers w) (alive w) (out w).
Definition set_dice_label (i : option PhotoImage) (w : World) : World :=
  mkWorld (env w) (cursor w) (roll_sound w) (history w) (dice_images w) i
          (roll_button w) (history_label w) (timers w) (alive w) (out w).
Definition set_roll_button (s : widget_state) (w : World) : World :=
  mkWorld (env w) (cursor w) (roll_sound w) (history w) (dice_images w)
          (dice_label w) s (history_label w) (timers w) (alive w) (out w).
Definition set_history_label (t : string) (w : World) : World :=
  mkWorld (env w) (cursor w) (roll_sound w) (history w) (dice_images w)
          (dice_label w) (roll_button w) t (timers w) (alive w) (out w).
Definition set_timers (q : list callback) (w : World) : World :=
  mkWorld (env w) (cursor w) (roll_sound w) (history w) (dice_images w)
          (dice_label w) (roll_button w) (history_label w) q (alive w) (out w).
Definition set_alive (b : bool) (w : World) : World :=
  mkWorld (env w) (cursor w) (roll_sound w) (history w) (dice_images w)
          (dice_label w) (roll_button w) (history_label w) (timers w) b (out w).
Definition emit (c : call) (w : World) : World :=
  mkWorld (env w) (cursor w) (roll_sound w) (history w) (dice_images w)
          (dice_label w) (roll_button w) (history_label w) (timers w) (alive w)
          (out w ++ [c]).

(** ** The monad of methods

    A Python statement changes the world and either yields a value or
    raises; what it changed before raising stays changed. *)

Inductive res (A : Type) :=
| Val (a : A)
| Raise (e : exn).
Arguments Val {A} a.
Arguments Raise {A} e.

Definition M (A : Type) : Type := World -> res A * World.

Definition ret {A} (a : A) : M A := fun w => (Val a, w).

Definition bind {A B} (m : M A) (k : A -> M B) : M B :=
  fun w => match m w with
           | (Val a, w') => k a w'
           | (Raise e, w') => (Raise e, w')
           end.

Definition raise {A} (e : exn) : M A := fun w => (Raise e, w).

(** [try: body except <those e with handles e = true>: handler]. *)
Definition try_except {A} (body : M A) (handles : exn -> bool)
           (handler : exn -> M A) : M A :=
  fun w => match body w with
           | (Val a, w') => (Val a, w')
           | (Raise e, w') => if handles e then handler e w' else (Raise e, w')
           end.

Definition gets {A} (f : World -> A) : M A := fun w => (Val (f w), w).
Definition modify (f : World -> World) : M unit := fun w => (Val tt, f w).

Declare Scope dice_scope.
Delimit Scope dice_scope with dice.
Notation "x <- m ;; k" := (bind m (fun x => k))
  (at level 100, m at next level, right associativity) : dice_scope.
Notation "m ;; k" := (bind m (fun _ => k))
  (at level 100, right associativity) : dice_scope.
Local Open Scope dice_scope.

(** [for x in xs: body x]. *)
Fixpoint for_each {A} (xs : list A) (body : A -> M unit) : M unit :=
  match xs with
  | [] => ret tt
  | x :: xs' => body x ;; for_each xs' body
  end.

(** ** Library calls *)

(** [str(i)] of a Python int, and [sep.join(parts)]. *)
Definition str (i : Z) : string := NilZero.string_of_int (Z.to_int i).

Definition nl : string := String (ascii_of_nat 10) "".

Definition join (sep : string) (parts : list string) : string :=
  String.concat sep parts.

(** [range(a, b)]. *)
Definition range (a b : Z) : list Z :=
  map (fun k => a + Z.of_nat k) (seq 0 (Z.to_nat (b - a))).

(** [l[i:]] with Python's rule for a start index: a negative one counts
    from the end, and the result is clipped to the list. *)
Definition slice_from {A} (i : Z) (l : list A) : list A :=
  let len := Z.of_nat (length l) in
  let start := if i <? 0 then Z.max (len + i) 0 else Z.min i len in
  skipn (Z.to_nat start) l.

(** [random.randint(a, b)]: the next raw word of the generator reduced
    to the closed range from [a] to [b]. *)
Definition randint (a b : Z) : M Z :=
  fun w => (Val (a + entropy (env w) (cursor w) mod (b - a + 1)),
            set_cursor (S (cursor w)) w).

(** [print(text)]. *)
Definition print (text : string) : M unit := modify (emit (Print text)).

(** [pygame.mixer.init()]. *)
Definition mixer_init : M unit :=
  modify (emit MixerInit) ;;
  oerr <- gets (fun w => mixer_error (env w)) ;;
  match oerr with
  | None => ret tt
  | Some msg => raise (PygameError msg)
  end.

(** [pygame.mixer.Sound(file)]. *)
Definition mixer_Sound (file : string) : M Sound :=
  modify (emit (MixerSound file)) ;;
  missing <- gets (fun w => sound_missing (env w)) ;;
  if missing then raise (FileNotFoundError file)
  else
    oerr <- gets (fun w => sound_error (env w)) ;;
    match oerr with
    | None => ret (mkSound file)
    | Some msg => raise (PygameError msg)
    end.

(** [tk.PhotoImage(file=file)]. *)
Definition tk_PhotoImage (file : string) : M PhotoImage :=
  ok <- gets (fun w => image_readable (env w) file) ;;
  if ok then ret (mkPhotoImage file) else raise TclError.

(** [self.after(ms, cb)]. *)
Definition after (ms : Z) (cb : callback) : M unit :=
  modify (fun w => emit (After ms cb) (set_timers (timers w ++ [cb]) w)).

(** [self.dice_images[face]], a dict subscript. *)
Definition dice_images_getitem (face : Z) : M PhotoImage :=
  m <- gets dice_images ;;
  match m !! face with
  | Some img => ret img
  | None => raise (KeyError face)
  end.

Definition dice_label_config (img : PhotoImage) : M unit :=
  modify (fun w => emit (DiceLabelConfig img) (set_dice_label (Some img) w)).

Definition history_label_config (text : string) : M unit :=
  modify (fun w => emit (HistoryLabelConfig text) (set_history_label text w)).

Definition roll_button_config (st : widget_state) : M unit :=
  modify (fun w => emit (RollButtonConfig st) (set_roll_button st w)).

(** ** The methods of [DiceSimulator] *)

Definition dice_png (i : Z) : string :=
  ("images/dice" ++ str i ++ ".png")%string.

Definition destroy : M unit :=
  modify (emit MixerQuit) ;;
  modify (fun w => emit TkDestroy (set_alive false w)).

Definition load_images_error : string :=
  "Error: Unable to load dice images. Ensure 'images/dice1.png' to 'dice6.png' exist.".

Definition load_images : M unit :=
  try_except
    (for_each (range 1 7) (fun i =>
       img <- tk_PhotoImage (dice_png i) ;;
       modify (fun w => set_dice_images (<[i := img]> (dice_images w)) w)))
    (fun e => match e with TclError => true | _ => false end)
    (fun _ =>
       print load_images_error ;;
       destroy ;;
       raise SystemExit).

Definition history_header : string := ("Roll History:" ++ nl)%string.

Definition setup_ui : M unit :=
  img <- dice_images_getitem 1 ;;
  modify (set_dice_label (Some img)) ;;
  modify (set_roll_button normal) ;;
  modify (set_history_label history_header).

Definition update_dice_image (face : Z) : M unit :=
  img <- dice_images_getitem face ;;
  dice_label_config img.

Definition update_history : M unit :=
  h <- gets history ;;
  let history_text :=
    (history_header ++ join nl (map str (slice_from (-5) h)))%string in
  history_label_config history_text.

Definition animate_roll (final_face count : Z) : M unit :=
  if count >? 0 then
    random_face <- randint 1 6 ;;
    update_dice_image random_face ;;
    after 100 (mkCallback final_face count)
  else
    update_dice_image final_face ;;
    modify (fun w => set_history (history w ++ [final_face]) w) ;;
    update_history ;;
    roll_button_config normal.

Definition roll_dice : M unit :=
  st <- gets roll_button ;;
  if widget_state_eqb st disabled then ret tt
  else
    roll_button_config disabled ;;
    snd <- gets roll_sound ;;
    match snd with
    | Some s => modify (emit (SoundPlay s))
    | None => ret tt
    end ;;
    final_face <- randint 1 6 ;;
    animate_roll final_face 5.

Definition sound_warning (msg : string) : string :=
  ("Warning: Could not load 'dice_sound.mp3'. Sound disabled. Error: " ++ msg)%string.

Definition __init__ : M unit :=
  mixer_init ;;
  try_except
    (s <- mixer_Sound "dice_sound.mp3" ;;
     modify (set_roll_sound (Some s)))
    (fun e => match e with PygameError _ => true | _ => false end)
    (fun e =>
       print (sound_warning (match e with PygameError msg => msg | _ => "" end)) ;;
       modify (set_roll_sound None)) ;;
  modify (set_history []) ;;
  modify (set_dice_images ∅) ;;
  load_images ;;
  setup_ui.

(** ** The event loop *)

Inductive gui_event :=
| Click        (* the button is activated, or space is pressed *)
| TimerFire    (* the oldest pending [after] callback falls due *)
| Close.       (* the window is closed *)

(** The call of a stored closure. *)
Definition run_callback (cb : callback) : M unit :=
  animate_roll (cb_final_face cb) (cb_count cb - 1).

(** tkinter runs a handler and reports an exception that escapes it;
    the loop goes on. *)
Definition dispatch (handler : M unit) (w : World) : World :=
  match handler w with
  | (Val _, w') => w'
  | (Raise e, w') => emit (ReportCallbackException e) w'
  end.

Definition handle (ev : gui_event) (w : World) : World :=
  match ev with
  | Click => dispatch roll_dice w
  | TimerFire =>
      match timers w with
      | [] => w
      | cb :: rest => dispatch (run_callback cb) (set_timers rest w)
      end
  | Close => dispatch destroy w
  end.

(** [app.mainloop()]: events are served until the window is gone. *)
Fixpoint mainloop (evs : list gui_event) (w : World) : World :=
  match evs with
  | [] => w
  | ev :: evs' => if alive w then mainloop evs' (handle ev w) else w
  end.

(** [app = DiceSimulator(); app.mainloop()]. *)
Definition main (e : Env) (evs : list gui_event) : res unit * World :=
  match __init__ (boot e) with
  | (Val _, w) => (Val tt, mainloop evs w)
  | (Raise x, w) => (Raise x, w)
  end.

(** ** What a roll amounts to

    Pure descriptions of the effect of the methods, used to state and
    prove the properties below. *)

(** The value [random.randint(1, 6)] returns at draw number [n]. *)
Definition draw (e : Env) (n : nat) : Z := 1 + entropy e n mod (6 - 1 + 1).

Definition is_face (f : Z) : Prop := 1 <= f <= 6.

(** The image [load_images] stores for face [i]. *)
Definition face_image (i : Z) : PhotoImage := mkPhotoImage (dice_png i).

(** The text [update_history] shows for a history [h]. *)
Definition history_text (h : list Z) : string :=
  (history_header ++ join nl (map str (slice_from (-5) h)))%string.

Definition images_loaded (w : World) : Prop :=
  forall i, 1 <= i <= 6 -> dice_images w !! i = Some (face_image i).

(** The events of one roll: the click that starts it, then one timer
    event per element of [ks], the k-th preceded by [ks !! k] further
    clicks made while the animation runs. *)
Definition roll_events (ks : list nat) : list gui_event :=
  Click :: flat_map (fun k => repeat Click k ++ [TimerFire]) ks.

(** The outcome a roll started in [w] samples first, and the faces of
    its animation frames. *)
Definition final_outcome (w : World) : Z := draw (env w) (cursor w).

Definition frame_faces (w : World) : list Z :=
  map (fun i => draw (env w) (i + cursor w)) (seq 1 5).

Definition sound_calls (w : World) : list call :=
  match roll_sound w with
  | Some s => [SoundPlay s]
  | None => []
  end.

(** The calls of the animation frames: each shows its face and re-arms
    the timer with the count it was entered with. *)
Definition frame_calls (f : Z) (faces : list Z) : list call :=
  flat_map (fun '(r, c) => [DiceLabelConfig (face_image r);
                            After 100 (mkCallback f c)])
           (combine faces [5; 4; 3; 2; 1]).

Definition commit_calls (h : list Z) (f : Z) : list call :=
  [DiceLabelConfig (face_image f);
   HistoryLabelConfig (history_text (h ++ [f]));
   RollButtonConfig normal].

Definition roll_calls (w : World) : list call :=
  [RollButtonConfig disabled] ++ sound_calls w
  ++ frame_calls (final_outcome w) (frame_faces w)
  ++ commit_calls (history w) (final_outcome w).

(** The world a completed roll started in [w] leaves behind. *)
Definition after_roll (w : World) : World :=
  let f := final_outcome w in
  {| env := env w;
     cursor := (6 + cursor w)%nat;
     roll_sound := roll_sound w;
     history := history w ++ [f];
     dice_images := dice_images w;
     dice_label := Some (face_image f);
     roll_button := normal;
     history_label := history_text (history w ++ [f]);
     timers := [];
     alive := alive w;
     out := out w ++ roll_calls w |}.

(** The face updates among a list of calls. *)
Definition face_updates (cs : list call) : list PhotoImage :=
  flat_map (fun c => match c with DiceLabelConfig i => [i] | _ => [] end) cs.

Definition test_env : Env :=
  {| mixer_error := None; sound_missing := false; sound_error := None;
     image_readable := fun _ => true; entropy := fun n => Z.of_nat n |}.

(** ** The effect of the methods, start-up and the invariant *)

(** A frame of the animation: [animate_roll] entered with [count > 0]. *)
Definition frame (f c : Z) (w : World) : World :=
  let r := final_outcome w in
  emit (After 100 (mkCallback f c))
    (set_timers (timers w ++ [mkCallback f c])
      (emit (DiceLabelConfig (face_image r))
        (set_dice_label (Some (face_image r))
          (set_cursor (S (cursor w)) w)))).

(** The end of the animation: [animate_roll] entered with [count <= 0]. *)
Definition commit (f : Z) (w : World) : World :=
  let h := history w ++ [f] in
  emit (RollButtonConfig normal)
    (set_roll_button normal
      (emit (HistoryLabelConfig (history_text h))
        (set_history_label (history_text h)
          (set_history h
            (emit (DiceLabelConfig (face_image f))
              (set_dice_label (Some (face_image f)) w)))))).

(** The start of a roll: [roll_dice] up to its call of [animate_roll]. *)
Definition start (w : World) : World :=
  let w1 := emit (RollButtonConfig disabled) (set_roll_button disabled w) in
  let w2 := match roll_sound w with
            | Some s => emit (SoundPlay s) w1
            | None => w1
            end in
  set_cursor (S (cursor w)) w2.

Definition init_sound (e : Env) : option Sound :=
  match sound_error e with
  | None => Some (mkSound "dice_sound.mp3")
  | Some _ => None
  end.

Definition init_calls (e : Env) : list call :=
  MixerInit :: MixerSound "dice_sound.mp3" ::
  match sound_error e with
  | None => []
  | Some msg => [Print (sound_warning msg)]
  end.

Definition store_image (m : gmap Z PhotoImage) (i : Z) : gmap Z PhotoImage :=
  <[i := face_image i]> m.

Definition all_images : gmap Z PhotoImage :=
  fold_left store_image [1; 2; 3; 4; 5; 6] ∅.

(** The world [__init__] leaves when every image loads. *)
Definition init_world (e : Env) : World :=
  {| env := e; cursor := 0%nat; roll_sound := init_sound e; history := [];
     dice_images := all_images; dice_label := Some (face_image 1);
     roll_button := normal; history_label := history_header; timers := [];
     alive := true; out := init_calls e |}.

(** The world [__init__] leaves when an image fails to load, [m] being
    the images stored before the failure. *)
Definition failed_world (e : Env) (m : gmap Z PhotoImage) : World :=
  {| env := e; cursor := 0%nat; roll_sound := init_sound e; history := [];
     dice_images := m; dice_label := None;
     roll_button := normal; history_label := ""; timers := [];
     alive := false;
     out := init_calls e ++ [Print load_images_error; MixerQuit; TkDestroy] |}.

(** The world [__init__] leaves when [pygame.mixer.init] raises. *)
Definition no_mixer_world (e : Env) : World :=
  {| env := e; cursor := 0%nat; roll_sound := None; history := [];
     dice_images := ∅; dice_label := None; roll_button := normal;
     history_label := ""; timers := []; alive := true; out := [MixerInit] |}.

(** The world [__init__] leaves when the sound file is not there. *)
Definition no_sound_world (e : Env) : World :=
  {| env := e; cursor := 0%nat; roll_sound := None; history := [];
     dice_images := ∅; dice_label := None; roll_button := normal;
     history_label := ""; timers := []; alive := true;
     out := [MixerInit; MixerSound "dice_sound.mp3"] |}.

Definition images_readable (e : Env) : Prop :=
  Forall (fun i => image_readable e (dice_png i) = true) [1; 2; 3; 4; 5; 6].

Definition load_one (i : Z) : M unit :=
  img <- tk_PhotoImage (dice_png i) ;;
  modify (fun w => set_dice_images (<[i := img]> (dice_images w)) w).

(** The world in which [__init__] calls [load_images]. *)
Definition before_images (e : Env) : World :=
  {| env := e; cursor := 0%nat; roll_sound := init_sound e; history := [];
     dice_images := ∅; dice_label := None; roll_button := normal;
     history_label := ""; timers := []; alive := true; out := init_calls e |}.

(** The calls the program makes once the event loop runs. *)
Definition loop_call_ok (rs : option Sound) (c : call) : Prop :=
  match c with
  | DiceLabelConfig img => exists f, is_face f /\ img = face_image f
  | After ms cb => ms = 100 /\ is_face (cb_final_face cb) /\ 1 <= cb_count cb <= 5
  | SoundPlay s => rs = Some s
  | HistoryLabelConfig _ | RollButtonConfig _ | MixerQuit | TkDestroy => True
  | Print _ | MixerInit | MixerSound _ | ReportCallbackException _ => False
  end.

(** The calls of a running program: those of [__init__], then calls of
    the event loop only. *)
Definition loop_calls (e : Env) (o : list call) : Prop :=
  exists cs, o = init_calls e ++ cs /\ Forall (loop_call_ok (init_sound e)) cs.

Record Inv (e : Env) (w : World) : Prop := mkInv {
  inv_env : env w = e;
  inv_sound : roll_sound w = init_sound e;
  inv_images : images_loaded w;
  inv_timers :
    match roll_button w with
    | normal => timers w = []
    | disabled => exists f c, timers w = [mkCallback f c] /\ is_face f /\ 1 <= c <= 5
    end;
  inv_history : Forall is_face (history w);
  inv_label : history_label w = history_text (history w);
  inv_shown : exists f, is_face f /\ dice_label w = Some (face_image f);
  inv_out : loop_calls e (out w)
}.

(** [n] rolls in a row. *)
Fixpoint after_rolls (n : nat) (w : World) : World :=
  match n with
  | O => w
  | S n' => after_rolls n' (after_roll w)
  end.

(** The outcomes of [n] rolls in a row: a roll makes six draws, the
    first of which is its outcome. *)
Definition outcomes (e : Env) (first : nat) (n : nat) : list Z :=
  map (fun j => draw e (6 * j + first)) (seq 0 n).

(** The boolean form of [images_readable], for use on a given
    environment. *)
Definition images_readableb (e : Env) : bool :=
  forallb (fun i => image_readable e (dice_png i)) [1; 2; 3; 4; 5; 6].

(** An environment whose generator makes the rolls come out 1, 2, 3,
    4, 5, 6, 1, ... in turn. *)
Definition counting_env : Env :=
  {| mixer_error := None; sound_missing := false; sound_error := None;
     image_readable := fun _ => true;
     entropy := fun n => Z.of_nat (n / 6) |}.

(** The calls that touch the sound file or report a failed handler. *)
Definition sound_free (c : call) : Prop :=
  match c with
  | SoundPlay _ | MixerSound _ | ReportCallbackException _ => False
  | _ => True
  end.

(** An environment in which the sound file cannot be loaded. *)
Definition silent_env : Env :=
  {| mixer_error := None; sound_missing := false;
     sound_error := Some "Unrecognized audio format";
     image_readable := fun _ => true; entropy := fun n => Z.of_nat n |}.

(** An environment in which the sound file is not there. *)
Definition missing_sound_env : Env :=
  {| mixer_error := None; sound_missing := true; sound_error := None;
     image_readable := fun _ => true; entropy := fun n => Z.of_nat n |}.




(** ** Counting calls, events and draws *)

Definition count_calls (p : call -> bool) (cs : list call) : nat :=
  length (List.filter p cs).

Definition is_quit (c : call) : bool :=
  match c with MixerQuit => true | _ => false end.

Definition is_play (c : call) : bool :=
  match c with SoundPlay _ => true | _ => false end.

Definition is_disable (c : call) : bool :=
  match c with RollButtonConfig disabled => true | _ => false end.

Definition is_click (ev : gui_event) : bool :=
  match ev with Click => true | _ => false end.

Definition is_timer (ev : gui_event) : bool :=
  match ev with TimerFire => true | _ => false end.

Definition is_close (ev : gui_event) : bool :=
  match ev with Close => true | _ => false end.

Definition count_events (p : gui_event -> bool) (evs : list gui_event) : nat :=
  length (List.filter p evs).

(** The rolls begun so far: those committed and the one in flight. *)
Definition rolls_started (w : World) : nat :=
  (length (history w) + match timers w with [] => 0 | _ :: _ => 1 end)%nat.

(** The numbers the roll in flight has drawn: its outcome, and one per
    frame shown; the pending callback holds the count of the last frame. *)
Definition draws_in_flight (w : World) : nat :=
  match timers w with
  | [] => 0%nat
  | cb :: _ => Z.to_nat (7 - cb_count cb)
  end.

(** The timer events the roll in flight has consumed. *)
Definition ticks_in_flight (w : World) : nat :=
  match timers w with
  | [] => 0%nat
  | cb :: _ => Z.to_nat (5 - cb_count cb)
  end.

(** What the program keeps true besides [Inv]: which draw went where,
    and how the calls made add up. *)
Record Ledger (e : Env) (w : World) : Prop := mkLedger {
  led_images : dice_images w = all_images;
  led_cursor : cursor w = (6 * length (history w) + draws_in_flight w)%nat;
  led_history : history w = outcomes e 0 (length (history w));
  led_pending : forall cb, In cb (timers w) ->
                  cb_final_face cb = draw e (6 * length (history w));
  led_idle : roll_button w = normal ->
             dice_label w = Some (face_image (List.last (history w) 1));
  led_starts : count_calls is_disable (out w) = rolls_started w;
  led_plays : count_calls is_play (out w)
              = match init_sound e with
                | Some _ => rolls_started w
                | None => 0%nat
                end;
  led_quit : count_calls is_quit (out w) = if alive w then 0%nat else 1%nat
}.

(** ** The display expected of the history label

    Written out character by character, apart from [update_history]
    and the library calls it makes, to compare the program against. *)

Definition line_feed : string := String "010"%char EmptyString.

(** The decimal digit of a die face. *)
Definition face_digit (f : Z) : string :=
  String (ascii_of_nat (48 + Z.to_nat f)) EmptyString.

Fixpoint one_per_line (lines : list string) : string :=
  match lines with
  | [] => EmptyString
  | l :: rest =>
      match rest with
      | [] => l
      | _ :: _ => (l ++ line_feed ++ one_per_line rest)%string
      end
  end.

Definition expected_history_text (shown : list Z) : string :=
  ("Roll History:" ++ line_feed ++ one_per_line (map face_digit shown))%string.

(** * Properties *)

(** ** Library calls *)

Lemma draw_is_face e n : is_face (draw e n).
Proof.
  unfold is_face, draw.
  pose proof (Z.mod_pos_bound (entropy e n) (6 - 1 + 1)). lia.
Qed.

Lemma randint_1_6 w :
  randint 1 6 w = (Val (final_outcome w), set_cursor (S (cursor w)) w).
Proof. reflexivity. Qed.

Lemma is_face_cases i : is_face i -> In i [1; 2; 3; 4; 5; 6].
Proof. unfold is_face. simpl. lia. Qed.

(** Python's [l[-5:]] keeps the last five elements, or all of a
    shorter list. *)
Lemma slice_from_last5 {A} (l : list A) :
  slice_from (-5) l = skipn (length l - 5) l.
Proof.
  unfold slice_from. f_equal.
  change (-5 <? 0) with true. cbv iota. lia.
Qed.

Global Opaque str dice_png history_header nl.
Global Arguments draw : simpl never.
Global Arguments history_text : simpl never.
Global Arguments slice_from : simpl never.

(** ** The methods, one call at a time *)

Ltac unfold_methods :=
  cbv beta iota zeta delta
    [bind ret raise gets modify try_except print mixer_Sound tk_PhotoImage
     after dice_images_getitem dice_label_config history_label_config
     roll_button_config destroy setup_ui update_dice_image update_history
     run_callback dispatch handle set_cursor set_roll_sound set_history
     set_dice_images set_dice_label set_roll_button set_history_label
     set_timers set_alive emit env cursor roll_sound history dice_images
     dice_label roll_button history_label timers alive out widget_state_eqb
     cb_final_face cb_count].

Lemma animate_roll_frame f c w :
  c > 0 -> images_loaded w ->
  animate_roll f c w = (Val tt, frame f c w).
Proof.
  intros Hc Himg. unfold animate_roll.
  destruct (Z.gtb_spec c 0) as [_|?]; [|lia].
  unfold frame, final_outcome.
  destruct w as [e n rs h di dl rb hl tm al o]; unfold images_loaded in Himg.
  unfold randint. unfold_methods. cbv beta iota delta [dice_images] in Himg.
  fold (draw e n). rewrite (Himg (draw e n)) by apply draw_is_face.
  reflexivity.
Qed.

Lemma animate_roll_commit f c w :
  c <= 0 -> is_face f -> images_loaded w ->
  animate_roll f c w = (Val tt, commit f w).
Proof.
  intros Hc Hf Himg. unfold animate_roll.
  destruct (Z.gtb_spec c 0) as [?|_]; [lia|].
  unfold commit.
  destruct w as [e n rs h di dl rb hl tm al o]; unfold images_loaded in Himg.
  unfold_methods. cbv beta iota delta [dice_images] in Himg.
  rewrite (Himg f Hf). reflexivity.
Qed.

Lemma images_loaded_start w : images_loaded w -> images_loaded (start w).
Proof. unfold start, images_loaded. destruct w, roll_sound0; auto. Qed.

Lemma roll_dice_busy w :
  roll_button w = disabled -> roll_dice w = (Val tt, w).
Proof.
  intros Hb. unfold roll_dice, bind, gets. rewrite Hb. reflexivity.
Qed.

Lemma roll_dice_idle w :
  roll_button w = normal -> images_loaded w ->
  roll_dice w = (Val tt, frame (final_outcome w) 5 (start w)).
Proof.
  intros Hb Himg.
  rewrite <- (animate_roll_frame (final_outcome w) 5 (start w))
    by (try apply images_loaded_start; auto; lia).
  unfold roll_dice, start, final_outcome, randint.
  destruct w as [e n rs h di dl rb hl tm al o]. simpl in Hb. subst rb.
  destruct rs; reflexivity.
Qed.

Lemma handle_click_busy w :
  roll_button w = disabled -> handle Click w = w.
Proof.
  intros Hb. unfold handle, dispatch. rewrite roll_dice_busy; auto.
Qed.

Lemma handle_click_idle w :
  roll_button w = normal -> images_loaded w ->
  handle Click w = frame (final_outcome w) 5 (start w).
Proof.
  intros Hb Himg. unfold handle, dispatch. rewrite roll_dice_idle; auto.
Qed.

Lemma handle_timer_frame w f c rest :
  timers w = mkCallback f c :: rest -> c - 1 > 0 -> images_loaded w ->
  handle TimerFire w = frame f (c - 1) (set_timers rest w).
Proof.
  intros Ht Hc Himg. unfold handle, dispatch, run_callback. rewrite Ht.
  rewrite animate_roll_frame; auto.
Qed.

Lemma handle_timer_commit w f c rest :
  timers w = mkCallback f c :: rest -> c - 1 <= 0 -> is_face f ->
  images_loaded w ->
  handle TimerFire w = commit f (set_timers rest w).
Proof.
  intros Ht Hc Hf Himg. unfold handle, dispatch, run_callback. rewrite Ht.
  rewrite animate_roll_commit; auto.
Qed.

(** ** The event loop *)

Lemma mainloop_app evs1 evs2 w :
  alive (mainloop evs1 w) = true ->
  mainloop (evs1 ++ evs2) w = mainloop evs2 (mainloop evs1 w).
Proof.
  revert w. induction evs1 as [|ev evs1 IH]; intros w Hal; simpl in *.
  - reflexivity.
  - destruct (alive w) eqn:Hw.
    + apply IH, Hal.
    + congruence.
Qed.

(** Clicks made while the button is disabled leave no trace. *)
Lemma mainloop_clicks_busy k evs w :
  roll_button w = disabled ->
  mainloop (repeat Click k ++ evs) w = mainloop evs w.
Proof.
  intros Hb. induction k as [|k IH]; cbn [repeat app mainloop].
  - reflexivity.
  - rewrite handle_click_busy by exact Hb. rewrite IH.
    destruct (alive w) eqn:Hal; [reflexivity|].
    destruct evs; cbn [mainloop]; rewrite ?Hal; reflexivity.
Qed.

(** One timer event of a running animation, with the clicks before it. *)
Lemma mainloop_frame k evs w f c :
  alive w = true -> roll_button w = disabled -> images_loaded w ->
  timers w = [mkCallback f c] -> c - 1 > 0 ->
  mainloop ((repeat Click k ++ [TimerFire]) ++ evs) w
  = mainloop evs (frame f (c - 1) (set_timers [] w)).
Proof.
  intros Hal Hb Himg Ht Hc.
  rewrite <- app_assoc, mainloop_clicks_busy by exact Hb.
  cbn [app mainloop]. rewrite Hal.
  rewrite (handle_timer_frame w f c []); auto.
Qed.

Lemma mainloop_commit k evs w f c :
  alive w = true -> roll_button w = disabled -> images_loaded w ->
  timers w = [mkCallback f c] -> c - 1 <= 0 -> is_face f ->
  mainloop ((repeat Click k ++ [TimerFire]) ++ evs) w
  = mainloop evs (commit f (set_timers [] w)).
Proof.
  intros Hal Hb Himg Ht Hc Hf.
  rewrite <- app_assoc, mainloop_clicks_busy by exact Hb.
  cbn [app mainloop]. rewrite Hal.
  rewrite (handle_timer_commit w f c []); auto.
Qed.

(** A roll started when the button is enabled and no timer is pending
    runs to completion, whatever clicks arrive in between. *)
Lemma roll_completes w ks :
  alive w = true -> roll_button w = normal -> timers w = [] ->
  images_loaded w -> length ks = 5%nat ->
  mainloop (roll_events ks) w = after_roll w.
Proof.
  intros Hal Hb Ht Himg Hks.
  destruct ks as [|k1 [|k2 [|k3 [|k4 [|k5 [|? ?]]]]]]; try discriminate.
  unfold roll_events. cbn [flat_map mainloop]. rewrite Hal.
  rewrite handle_click_idle by assumption.
  destruct w as [e n rs h di dl rb hl tm al o].
  unfold images_loaded in Himg. simpl in Hal, Hb, Ht, Himg. subst al rb tm.
  unfold after_roll, roll_calls, frame_calls, frame_faces, commit_calls,
    sound_calls, final_outcome.
  cbn [env cursor roll_sound history out alive dice_images].
  destruct rs.
  all: repeat (erewrite mainloop_frame;
          [ | reflexivity | reflexivity | exact Himg | reflexivity | lia ]).
  all: erewrite mainloop_commit;
    [ | reflexivity | reflexivity | exact Himg | reflexivity | lia
      | apply draw_is_face ].
  all: cbn [mainloop].
  all: unfold commit, frame, start, final_outcome; unfold_methods.
  all: cbn -[Z.sub]; rewrite <- ?app_assoc; reflexivity.
Qed.

(** ** Start-up *)

Lemma set_dice_images_same w : set_dice_images (dice_images w) w = w.
Proof. destruct w; reflexivity. Qed.

(** The loop of [load_images] stores the images in order and stops at
    the first file that cannot be read. *)
Lemma load_loop_spec faces w :
  (Forall (fun i => image_readable (env w) (dice_png i) = true) faces /\
   for_each faces load_one w
   = (Val tt, set_dice_images (fold_left store_image faces (dice_images w)) w))
  \/
  (Exists (fun i => image_readable (env w) (dice_png i) = false) faces /\
   exists m, for_each faces load_one w = (Raise TclError, set_dice_images m w)).
Proof.
  revert w. induction faces as [|i faces IH]; intros w.
  - left. split; [constructor|]. cbn. now rewrite set_dice_images_same.
  - cbn [for_each].
    destruct (image_readable (env w) (dice_png i)) eqn:Hi.
    + assert (Hone : (load_one i ;; for_each faces load_one) w
                     = for_each faces load_one
                         (set_dice_images (store_image (dice_images w) i) w)).
      { unfold load_one, tk_PhotoImage, bind, gets, modify, ret.
        rewrite Hi. reflexivity. }
      rewrite Hone.
      destruct (IH (set_dice_images (store_image (dice_images w) i) w))
        as [[Hall Hrun]|[Hex [m Hrun]]]; rewrite Hrun.
      * left. split; [constructor; assumption|]. reflexivity.
      * right. split; [apply Exists_cons_tl; assumption|].
        exists m. reflexivity.
    + right. split; [apply Exists_cons_hd; assumption|].
      exists (dice_images w).
      unfold load_one, tk_PhotoImage, bind, gets, raise.
      rewrite Hi, set_dice_images_same. reflexivity.
Qed.

Lemma load_images_unfold :
  load_images
  = try_except (for_each [1; 2; 3; 4; 5; 6] load_one)
      (fun e => match e with TclError => true | _ => false end)
      (fun _ => print load_images_error ;; destroy ;; raise SystemExit).
Proof. reflexivity. Qed.

Lemma all_images_lookup i : is_face i -> all_images !! i = Some (face_image i).
Proof.
  intros Hi. apply is_face_cases in Hi. simpl in Hi.
  repeat destruct Hi as [<-|Hi]; try reflexivity. contradiction.
Qed.

Lemma init_unfold e :
  mixer_error e = None -> sound_missing e = false ->
  __init__ (boot e) = (load_images ;; setup_ui) (before_images e).
Proof.
  intros Hm Hs.
  unfold __init__, before_images, init_sound, init_calls, mixer_init,
    mixer_Sound.
  unfold_methods. unfold boot. rewrite Hm, Hs.
  destruct (sound_error e); reflexivity.
Qed.

Lemma init_no_mixer e msg :
  mixer_error e = Some msg ->
  __init__ (boot e) = (Raise (PygameError msg), no_mixer_world e).
Proof.
  intros Hm. unfold __init__, mixer_init. unfold_methods. unfold boot.
  rewrite Hm. reflexivity.
Qed.

Lemma init_no_sound e :
  mixer_error e = None -> sound_missing e = true ->
  __init__ (boot e)
  = (Raise (FileNotFoundError "dice_sound.mp3"), no_sound_world e).
Proof.
  intros Hm Hs. unfold __init__, mixer_init, mixer_Sound.
  unfold_methods. unfold boot. rewrite Hm, Hs. reflexivity.
Qed.

Lemma init_ok e :
  mixer_error e = None -> sound_missing e = false ->
  images_readable e -> __init__ (boot e) = (Val tt, init_world e).
Proof.
  intros Hmx Hsm Hr. rewrite init_unfold, load_images_unfold by assumption.
  unfold bind at 1, try_except.
  destruct (load_loop_spec [1; 2; 3; 4; 5; 6] (before_images e))
    as [[_ Hrun]|[Hex _]].
  - rewrite Hrun. reflexivity.
  - exfalso. apply Exists_exists in Hex as [i [Hin Hi]].
    unfold images_readable in Hr. rewrite Forall_forall in Hr.
    specialize (Hr i Hin). cbn in Hi. congruence.
Qed.

Lemma init_fails e :
  mixer_error e = None -> sound_missing e = false ->
  ~ images_readable e ->
  exists m, __init__ (boot e) = (Raise SystemExit, failed_world e m).
Proof.
  intros Hmx Hsm Hr. rewrite init_unfold, load_images_unfold by assumption.
  unfold bind at 1, try_except.
  destruct (load_loop_spec [1; 2; 3; 4; 5; 6] (before_images e))
    as [[Hall _]|[_ [m Hrun]]].
  - contradiction.
  - rewrite Hrun. exists m.
    unfold failed_world, before_images, init_calls, init_sound.
    destruct (sound_error e); reflexivity.
Qed.

Lemma images_readable_dec e : {images_readable e} + {~ images_readable e}.
Proof.
  apply Forall_dec. intros i.
  destruct (image_readable e (dice_png i)); [left|right]; congruence.
Qed.

(** [__init__] returns only when every image was read, and then in
    [init_world]. *)
Lemma init_returns_ready e w :
  __init__ (boot e) = (Val tt, w) ->
  mixer_error e = None /\ sound_missing e = false
  /\ images_readable e /\ w = init_world e.
Proof.
  intros H. destruct (mixer_error e) as [msg|] eqn:Hmx.
  { rewrite (init_no_mixer e msg Hmx) in H. discriminate. }
  destruct (sound_missing e) eqn:Hsm.
  { rewrite (init_no_sound e Hmx Hsm) in H. discriminate. }
  destruct (images_readable_dec e) as [Hr|Hr].
  - rewrite (init_ok e Hmx Hsm Hr) in H. repeat split; congruence.
  - destruct (init_fails e Hmx Hsm Hr) as [m Hm]. congruence.
Qed.

Lemma init_returns e w :
  __init__ (boot e) = (Val tt, w) -> images_readable e /\ w = init_world e.
Proof.
  intros H. apply init_returns_ready in H. tauto.
Qed.

(** ** What holds between any two events *)

Lemma string_append_empty (s : string) : (s ++ "")%string = s.
Proof.
  induction s as [|a s IH]; [reflexivity|].
  change (String a (s ++ "")%string = String a s). now rewrite IH.
Qed.

Lemma history_text_nil : history_text [] = history_header.
Proof. unfold history_text. cbn. apply string_append_empty. Qed.

Lemma init_world_inv e : Inv e (init_world e).
Proof.
  split; cbn.
  - reflexivity.
  - reflexivity.
  - intros i Hi. apply all_images_lookup, Hi.
  - reflexivity.
  - constructor.
  - symmetry. apply history_text_nil.
  - exists 1. split; [unfold is_face; lia|reflexivity].
  - exists []. split; [now rewrite app_nil_r|constructor].
Qed.

Global Arguments init_calls : simpl never.
Global Arguments init_sound : simpl never.

Lemma out_extend e o cs' :
  loop_calls e o -> Forall (loop_call_ok (init_sound e)) cs' ->
  loop_calls e (o ++ cs').
Proof.
  intros [cs [Ho Hcs]] Hcs'. exists (cs ++ cs'). split.
  - rewrite Ho, app_assoc. reflexivity.
  - apply Forall_app. split; assumption.
Qed.

Lemma face_call_ok rs f : is_face f -> loop_call_ok rs (DiceLabelConfig (face_image f)).
Proof. intros Hf. exists f. split; [assumption|reflexivity]. Qed.

Lemma frame_inv e w f c :
  env w = e -> roll_sound w = init_sound e -> images_loaded w ->
  roll_button w = disabled -> timers w = [] ->
  Forall is_face (history w) -> history_label w = history_text (history w) ->
  loop_calls e (out w) ->
  is_face f -> 1 <= c <= 5 ->
  Inv e (frame f c w).
Proof.
  intros He Hs Himg Hb Ht Hh Hl Ho Hf Hc.
  destruct w as [e0 n rs h di dl rb hl tm al o].
  cbn in He, Hs, Hb, Ht, Hh, Hl, Ho. subst e0 rb tm.
  unfold frame, final_outcome. split; cbn.
  - reflexivity.
  - assumption.
  - exact Himg.
  - exists f, c. auto.
  - assumption.
  - assumption.
  - exists (draw e n). split; [apply draw_is_face|reflexivity].
  - rewrite <- app_assoc. apply out_extend; [assumption|].
    constructor; [apply face_call_ok, draw_is_face|].
    constructor; [cbn; auto|constructor].
Qed.

Lemma commit_inv e w f :
  env w = e -> roll_sound w = init_sound e -> images_loaded w ->
  timers w = [] -> Forall is_face (history w) ->
  loop_calls e (out w) ->
  is_face f ->
  Inv e (commit f w).
Proof.
  intros He Hs Himg Ht Hh Ho Hf.
  destruct w as [e0 n rs h di dl rb hl tm al o].
  cbn in He, Hs, Ht, Hh, Ho. subst e0 tm.
  unfold commit. split; cbn.
  - reflexivity.
  - assumption.
  - exact Himg.
  - reflexivity.
  - apply Forall_app. split; [assumption|]. constructor; [assumption|constructor].
  - reflexivity.
  - exists f. split; [assumption|reflexivity].
  - rewrite <- !app_assoc. apply out_extend; [assumption|].
    constructor; [apply face_call_ok, Hf|].
    constructor; [exact I|]. constructor; [exact I|constructor].
Qed.

Lemma start_fields e w :
  env w = e -> roll_sound w = init_sound e ->
  loop_calls e (out w) ->
  env (start w) = e /\ roll_sound (start w) = init_sound e
  /\ roll_button (start w) = disabled /\ timers (start w) = timers w
  /\ history (start w) = history w /\ history_label (start w) = history_label w
  /\ loop_calls e (out (start w)).
Proof.
  intros He Hs Ho. unfold start.
  destruct w as [e0 n rs h di dl rb hl tm al o]. cbn in He, Hs, Ho |- *.
  subst e0. destruct rs as [s|]; cbn; repeat split; auto.
  - rewrite <- app_assoc. apply out_extend; [assumption|].
    constructor; [exact I|].
    constructor; [cbn; congruence|constructor].
  - apply out_extend; [assumption|].
    constructor; [exact I|constructor].
Qed.

(** Every handler preserves the invariant. *)
Lemma handle_inv e ev w : Inv e w -> Inv e (handle ev w).
Proof.
  intros [He Hs Himg Ht Hh Hl Hd Ho]. destruct ev.
  - (* Click *)
    destruct (roll_button w) eqn:Hb.
    + rewrite handle_click_idle by assumption.
      destruct (start_fields e w He Hs Ho)
        as (He' & Hs' & Hb' & Ht' & Hh' & Hl' & Ho').
      apply frame_inv; try assumption.
      * apply images_loaded_start, Himg.
      * congruence.
      * congruence.
      * congruence.
      * apply draw_is_face.
      * lia.
    + rewrite handle_click_busy by assumption.
      split; try assumption. rewrite Hb. assumption.
  - (* TimerFire *)
    destruct (roll_button w) eqn:Hb.
    + unfold handle. rewrite Ht.
      split; try assumption. rewrite Hb. assumption.
    + destruct Ht as (f & c & Ht & Hf & Hc).
      destruct (Z_gt_le_dec (c - 1) 0) as [Hgt|Hle].
      * rewrite (handle_timer_frame w f c []) by assumption.
        apply frame_inv; try assumption; try reflexivity. lia.
      * rewrite (handle_timer_commit w f c []) by assumption.
        apply commit_inv; try assumption; reflexivity.
  - (* Close *)
    unfold handle, dispatch, destroy. unfold_methods.
    destruct w as [e0 n rs h di dl rb hl tm al o]. cbn in *.
    split; cbn; try assumption.
    rewrite <- app_assoc. apply out_extend; [assumption|].
    constructor; [exact I|]. constructor; [exact I|constructor].
Qed.

Lemma mainloop_inv e evs w : Inv e w -> Inv e (mainloop evs w).
Proof.
  revert w. induction evs as [|ev evs IH]; intros w Hw; cbn [mainloop].
  - assumption.
  - destruct (alive w); [|assumption]. apply IH, handle_inv, Hw.
Qed.

(** The invariant holds whenever the program is running. *)
Lemma main_inv e evs w : main e evs = (Val tt, w) -> Inv e w.
Proof.
  unfold main. intros H.
  destruct (__init__ (boot e)) as [[[]|x] w0] eqn:Hinit; [|discriminate].
  apply init_returns in Hinit as [_ ->].
  injection H as <-. apply mainloop_inv, init_world_inv.
Qed.

(** ** Rolls in progress and sequences of rolls *)

(** Until its last timer event a roll keeps the button disabled, the
    history untouched and one callback pending. *)
Lemma roll_in_progress w ks :
  alive w = true -> roll_button w = normal -> timers w = [] ->
  images_loaded w -> (length ks < 5)%nat ->
  let w' := mainloop (roll_events ks) w in
  roll_button w' = disabled /\ history w' = history w
  /\ timers w' = [mkCallback (final_outcome w) (5 - Z.of_nat (length ks))]
  /\ alive w' = true.
Proof.
  intros Hal Hb Ht Himg Hks.
  destruct ks as [|k1 [|k2 [|k3 [|k4 [|k5 ?]]]]]; cbn [length] in Hks; try lia.
  all: unfold roll_events; cbn [flat_map mainloop]; rewrite Hal.
  all: rewrite handle_click_idle by assumption.
  all: destruct w as [e n rs h di dl rb hl tm al o].
  all: unfold images_loaded in Himg; simpl in Hal, Hb, Ht, Himg; subst al rb tm.
  all: unfold final_outcome; cbn [env cursor history].
  all: destruct rs.
  all: repeat (erewrite mainloop_frame;
               [ | reflexivity | reflexivity | exact Himg | reflexivity | lia ]).
  all: try rewrite app_nil_r; cbn [mainloop].
  all: repeat split; reflexivity.
Qed.

Lemma outcomes_S e first n :
  outcomes e first (S n) = draw e first :: outcomes e (6 + first) n.
Proof.
  unfold outcomes. cbn [seq map].
  rewrite <- seq_shift, map_map.
  replace (6 * 0 + first)%nat with first by lia.
  apply (f_equal (cons (draw e first))).
  apply map_ext. intros j.
  replace (6 * S j + first)%nat with (6 * j + (6 + first))%nat by lia.
  reflexivity.
Qed.

Lemma history_after_rolls n w :
  history (after_rolls n w) = history w ++ outcomes (env w) (cursor w) n.
Proof.
  revert w. induction n as [|n IH]; intros w.
  - unfold outcomes. cbn. now rewrite app_nil_r.
  - cbn [after_rolls]. rewrite IH, outcomes_S.
    unfold after_roll; cbn [history env cursor].
    rewrite <- app_assoc. reflexivity.
Qed.

Lemma rolls_complete kss w :
  alive w = true -> roll_button w = normal -> timers w = [] ->
  images_loaded w -> Forall (fun ks => length ks = 5%nat) kss ->
  mainloop (flat_map roll_events kss) w = after_rolls (length kss) w.
Proof.
  revert w. induction kss as [|ks kss IH]; intros w Hal Hb Ht Himg Hkss.
  - reflexivity.
  - inversion Hkss as [|? ? Hks Hrest]; subst.
    cbn [flat_map length after_rolls].
    rewrite mainloop_app; rewrite roll_completes by assumption.
    + apply IH; auto.
    + exact Hal.
Qed.

(** Without a click nothing is ever shown or committed. *)
Lemma mainloop_without_click evs w :
  Forall (fun ev => ev <> Click) evs -> timers w = [] ->
  history (mainloop evs w) = history w
  /\ dice_label (mainloop evs w) = dice_label w
  /\ history_label (mainloop evs w) = history_label w.
Proof.
  revert w. induction evs as [|ev evs IH]; intros w Hevs Ht; cbn [mainloop].
  - auto.
  - inversion Hevs as [|? ? Hev Hrest]; subst.
    destruct (alive w); [|auto].
    destruct ev; [congruence| |].
    + unfold handle. rewrite Ht. apply IH; assumption.
    + destruct (IH (handle Close w) Hrest) as (H1 & H2 & H3).
      { destruct w; exact Ht. }
      rewrite H1, H2, H3. destruct w; auto.
Qed.

(** A handler leaves the history alone or, at the end of an animation,
    appends the outcome the pending callback carries. *)
Lemma handle_history e ev w :
  Inv e w ->
  history (handle ev w) = history w
  \/ exists f c, ev = TimerFire /\ timers w = [mkCallback f c] /\ c - 1 <= 0
                 /\ history (handle ev w) = history w ++ [f].
Proof.
  intros [He Hs Himg Ht Hh Hl Hd Ho]. destruct ev.
  - left. destruct (roll_button w) eqn:Hb.
    + rewrite handle_click_idle by assumption.
      unfold frame, start. destruct w as [e0 n rs h di dl rb hl tm al o].
      destruct rs; reflexivity.
    + rewrite handle_click_busy by assumption. reflexivity.
  - destruct (roll_button w) eqn:Hb.
    + left. unfold handle. rewrite Ht. reflexivity.
    + destruct Ht as (f & c & Ht & Hf & Hc).
      destruct (Z_gt_le_dec (c - 1) 0) as [Hgt|Hle].
      * left. rewrite (handle_timer_frame w f c []) by assumption.
        destruct w; reflexivity.
      * right. exists f, c.
        rewrite (handle_timer_commit w f c []) by assumption.
        repeat split; try assumption; destruct w; reflexivity.
  - left. destruct w; reflexivity.
Qed.

Lemma images_readableb_spec e :
  images_readableb e = true <-> images_readable e.
Proof.
  unfold images_readableb, images_readable.
  rewrite forallb_forall, List.Forall_forall. reflexivity.
Qed.

Lemma running_idle e evs w :
  main e evs = (Val tt, w) -> roll_button w = normal ->
  timers w = [] /\ images_loaded w.
Proof.
  intros Hrun Hb. destruct (main_inv e evs w Hrun) as [_ _ Himg Ht _ _ _ _].
  rewrite Hb in Ht. auto.
Qed.

Lemma main_returns e evs w :
  main e evs = (Val tt, w) -> w = mainloop evs (init_world e).
Proof.
  unfold main. intros H.
  destruct (__init__ (boot e)) as [[[]|x] w0] eqn:Hinit; [|discriminate].
  apply init_returns in Hinit as [_ ->]. congruence.
Qed.

(** * The claims *)

(** C1. While the program runs, a handler either leaves the history as
    it is or appends one element to it, and it appends only when the
    last timer event of an animation arrives; the element is the outcome
    the pending callback carries.  A roll started by a click on an
    enabled button fixes its outcome at that click, as the first number
    it draws, and once its five timer events have arrived the history
    is the former history followed by exactly that outcome. *)
Theorem roll_commits_final_outcome e evs w :
  main e evs = (Val tt, w) ->
  (forall ev,
      history (handle ev w) = history w
      \/ exists f c, ev = TimerFire /\ timers w = [mkCallback f c]
                     /\ c - 1 <= 0
                     /\ history (handle ev w) = history w ++ [f])
  /\ (alive w = true -> roll_button w = normal ->
      timers (handle Click w) = [mkCallback (final_outcome w) 5]
      /\ forall ks, length ks = 5%nat ->
           history (mainloop (roll_events ks) w)
           = history w ++ [final_outcome w]).
Proof.
  intros Hrun. split.
  - intros ev. apply (handle_history e), (main_inv e evs), Hrun.
  - intros Hal Hb. destruct (running_idle e evs w Hrun Hb) as [Ht Himg].
    split.
    + rewrite handle_click_idle by assumption.
      unfold frame, start. destruct w as [e0 n rs h di dl rb hl tm al o].
      cbn in Ht. subst tm. destruct rs; reflexivity.
    + intros ks Hks. rewrite roll_completes by assumption. reflexivity.
Qed.

Lemma roll_commits_final_outcome_witness :
  main test_env [] = (Val tt, init_world test_env)
  /\ history (mainloop (roll_events [0; 2; 0; 1; 0]%nat) (init_world test_env))
     = [1].
Proof.
  assert (Hrun : main test_env [] = (Val tt, init_world test_env))
    by (vm_compute; reflexivity).
  split; [exact Hrun|].
  pose proof (proj2 (roll_commits_final_outcome test_env [] _ Hrun)) as H.
  specialize (H eq_refl eq_refl). destruct H as [_ H].
  specialize (H [0; 2; 0; 1; 0]%nat eq_refl).
  vm_compute in H. vm_compute. exact H.
Defined.

(** C2. A roll that runs to completion makes six face updates: the
    five frames of the animation, showing the five numbers drawn after
    the outcome, and then one update showing the outcome, which is the
    face left on display. *)
Theorem roll_emits_five_frames_then_final e evs w ks :
  main e evs = (Val tt, w) -> alive w = true -> roll_button w = normal ->
  length ks = 5%nat ->
  let w' := mainloop (roll_events ks) w in
  out w' = out w ++ roll_calls w
  /\ face_updates (roll_calls w)
     = map face_image (frame_faces w) ++ [face_image (final_outcome w)]
  /\ length (frame_faces w) = 5%nat
  /\ dice_label w' = Some (face_image (final_outcome w)).
Proof.
  intros Hrun Hal Hb Hks.
  destruct (running_idle e evs w Hrun Hb) as [Ht Himg].
  cbv zeta. rewrite roll_completes by assumption.
  repeat split.
  unfold roll_calls, sound_calls. destruct (roll_sound w); reflexivity.
Qed.

Lemma roll_emits_five_frames_then_final_witness :
  main test_env [] = (Val tt, init_world test_env)
  /\ face_updates (roll_calls (init_world test_env))
     = map face_image [2; 3; 4; 5; 6] ++ [face_image 1].
Proof.
  assert (Hrun : main test_env [] = (Val tt, init_world test_env))
    by (vm_compute; reflexivity).
  split; [exact Hrun|].
  pose proof (roll_emits_five_frames_then_final test_env []
                (init_world test_env) [0; 0; 0; 0; 0]%nat
                Hrun eq_refl eq_refl eq_refl) as H.
  cbv zeta in H. destruct H as (_ & H & _).
  vm_compute in H. vm_compute. exact H.
Defined.



Lemma Forall_skipn_faces n (l : list Z) :
  Forall is_face l -> Forall is_face (skipn n l).
Proof.
  intros H. rewrite <- (firstn_skipn n l) in H.
  apply Forall_app in H. tauto.
Qed.

Lemma str_face_digit f : is_face f -> str f = face_digit f.
Proof.
  intros Hf. apply is_face_cases in Hf. cbn [In] in Hf.
  repeat destruct Hf as [<-|Hf]; try (vm_compute; reflexivity).
  contradiction.
Qed.

Lemma concat_cons2 sep x y (l : list string) :
  String.concat sep (x :: y :: l)
  = (x ++ sep ++ String.concat sep (y :: l))%string.
Proof. reflexivity. Qed.

Lemma one_per_line_cons2 x y (l : list string) :
  one_per_line (x :: y :: l)
  = (x ++ line_feed ++ one_per_line (y :: l))%string.
Proof. reflexivity. Qed.

Lemma join_one_per_line (fs : list Z) :
  Forall is_face fs ->
  join nl (map str fs) = one_per_line (map face_digit fs).
Proof.
  induction fs as [|f fs IH]; intros H; [reflexivity|].
  inversion H as [|? ? Hf Hfs]; subst. specialize (IH Hfs).
  cbn [map]. rewrite (str_face_digit f Hf).
  destruct fs as [|g fs]; [reflexivity|].
  cbn [map] in IH |- *. unfold join in IH |- *.
  rewrite concat_cons2, one_per_line_cons2, IH.
  assert (Hnl : nl = line_feed) by (vm_compute; reflexivity).
  rewrite Hnl. reflexivity.
Qed.

(** The text [update_history] composes is the expected display. *)
Lemma history_text_expected (h : list Z) :
  Forall is_face (slice_from (-5) h) ->
  history_text h = expected_history_text (slice_from (-5) h).
Proof.
  intros H. unfold history_text, expected_history_text.
  rewrite (join_one_per_line _ H).
  assert (Hh : history_header = ("Roll History:" ++ line_feed)%string)
    by (vm_compute; reflexivity).
  rewrite Hh. generalize (one_per_line (map face_digit (slice_from (-5) h))).
  intros t. vm_compute. reflexivity.
Qed.

Lemma skipn_suffix {A} n (l : list A) : exists older, l = older ++ skipn n l.
Proof. exists (firstn n l). symmetry. apply firstn_skipn. Qed.

(** C4. While the program runs, the history label reads
    "Roll History:" and then, one per line, the digits of the entries
    [history[-5:]]: the last five entries of the history (all of them
    when there are fewer), in the order they were committed.  After
    six rolls in a row from start-up whose outcomes are 1, 2, 3, 4, 5,
    6 the entries shown are 2, 3, 4, 5, 6 and the label reads
    "Roll History:", "2", "3", "4", "5", "6" on six lines. *)
Theorem history_label_shows_last_five e evs w :
  main e evs = (Val tt, w) ->
  let shown := slice_from (-5) (history w) in
  history_label w = (history_header ++ join nl (map str shown))%string
  /\ history_label w = expected_history_text shown
  /\ shown = skipn (length (history w) - 5) (history w)
  /\ (length shown <= 5)%nat
  /\ (exists older, history w = older ++ shown)
  /\ (forall kss,
        evs = flat_map roll_events kss ->
        Forall (fun ks => length ks = 5%nat) kss ->
        outcomes e 0 (length kss) = [1; 2; 3; 4; 5; 6] ->
        history w = [1; 2; 3; 4; 5; 6] /\ shown = [2; 3; 4; 5; 6]
        /\ history_label w = "Roll History:
2
3
4
5
6").
Proof.
  intros Hrun shown.
  pose proof (main_inv e evs w Hrun) as [_ _ _ _ Hh Hl _ _].
  assert (Hshown : shown = skipn (length (history w) - 5) (history w))
    by apply slice_from_last5.
  assert (Hfaces : Forall is_face shown).
  { rewrite Hshown. apply Forall_skipn_faces, Hh. }
  assert (Hexp : history_label w = expected_history_text shown).
  { rewrite Hl. apply history_text_expected, Hfaces. }
  split; [exact Hl|]. split; [exact Hexp|]. split; [exact Hshown|].
  split; [|split].
  - rewrite Hshown, length_skipn. lia.
  - rewrite Hshown. apply skipn_suffix.
  - intros kss Hevs Hkss Hout.
    assert (Hhist : history w = [1; 2; 3; 4; 5; 6]).
    { apply main_returns in Hrun. subst w evs.
      rewrite rolls_complete; try reflexivity; try assumption.
      - rewrite history_after_rolls. exact Hout.
      - intros i Hi. apply all_images_lookup, Hi. }
    assert (Hs : shown = [2; 3; 4; 5; 6]).
    { unfold shown. rewrite Hhist. reflexivity. }
    split; [exact Hhist|]. split; [exact Hs|].
    rewrite Hexp, Hs. reflexivity.
Qed.

Lemma history_label_shows_last_five_witness :
  let evs := flat_map roll_events (repeat [0; 0; 0; 0; 0]%nat 6) in
  let w := mainloop evs (init_world counting_env) in
  main counting_env evs = (Val tt, w)
  /\ history w = [1; 2; 3; 4; 5; 6]
  /\ slice_from (-5) (history w) = [2; 3; 4; 5; 6]
  /\ history_label w = "Roll History:
2
3
4
5
6".
Proof.
  intros evs w.
  assert (Hrun : main counting_env evs = (Val tt, w))
    by (vm_compute; reflexivity).
  split; [exact Hrun|].
  pose proof (history_label_shows_last_five counting_env evs w Hrun) as H.
  cbv zeta in H. destruct H as (_ & _ & _ & _ & _ & H).
  apply (H (repeat [0; 0; 0; 0; 0]%nat 6)).
  - reflexivity.
  - repeat constructor.
  - vm_compute. reflexivity.
Defined.

(** C5. The calls of a completed roll come in this order: the button
    is disabled, the sound is played if one is loaded, each of the five
    frames shows its face and re-arms the timer, the outcome is shown,
    the history label is set to the text of the history with the
    outcome appended, and last of all the button is enabled.  At every
    earlier point of the roll the button is still disabled and the
    history is still the former one. *)
Theorem roll_call_order e evs w ks :
  main e evs = (Val tt, w) -> alive w = true -> roll_button w = normal ->
  length ks = 5%nat ->
  let f := final_outcome w in
  out (mainloop (roll_events ks) w)
  = out w ++ [RollButtonConfig disabled] ++ sound_calls w
      ++ frame_calls f (frame_faces w)
      ++ [DiceLabelConfig (face_image f);
          HistoryLabelConfig (history_text (history w ++ [f]));
          RollButtonConfig normal]
  /\ forall ks', (length ks' < 5)%nat ->
       roll_button (mainloop (roll_events ks') w) = disabled
       /\ history (mainloop (roll_events ks') w) = history w.
Proof.
  intros Hrun Hal Hb Hks f.
  destruct (running_idle e evs w Hrun Hb) as [Ht Himg].
  split.
  - rewrite roll_completes by assumption. reflexivity.
  - intros ks' Hks'.
    destruct (roll_in_progress w ks' Hal Hb Ht Himg Hks') as (H1 & H2 & _).
    auto.
Qed.

Lemma roll_call_order_witness :
  let w := init_world test_env in
  main test_env [] = (Val tt, w)
  /\ out (mainloop (roll_events [1; 0; 3; 0; 0]%nat) w)
     = out w ++ [RollButtonConfig disabled] ++ sound_calls w
         ++ frame_calls (final_outcome w) (frame_faces w)
         ++ [DiceLabelConfig (face_image (final_outcome w));
             HistoryLabelConfig
               (history_text (history w ++ [final_outcome w]));
             RollButtonConfig normal].
Proof.
  intros w.
  assert (Hrun : main test_env [] = (Val tt, w)) by (vm_compute; reflexivity).
  split; [exact Hrun|].
  exact (proj1 (roll_call_order test_env [] w [1; 0; 3; 0; 0]%nat
                  Hrun eq_refl eq_refl eq_refl)).
Defined.

(** C6. While the program runs every entry of the history is a number
    from 1 to 6, every image the dice label was given or now shows is
    the image of such a number, and every pending callback carries
    such a number as its outcome; whatever the generator delivers, the
    outcome and the five frame faces a roll would draw next are such
    numbers, as is any value [randint 1 6] returns. *)
Theorem outcomes_are_faces e evs w :
  main e evs = (Val tt, w) ->
  Forall is_face (history w)
  /\ (forall img, In (DiceLabelConfig img) (out w) ->
        exists f, is_face f /\ img = face_image f)
  /\ (exists f, is_face f /\ dice_label w = Some (face_image f))
  /\ (forall cb, In cb (timers w) -> is_face (cb_final_face cb))
  /\ is_face (final_outcome w)
  /\ Forall is_face (frame_faces w)
  /\ (forall v w', randint 1 6 w = (Val v, w') -> is_face v).
Proof.
  intros Hrun.
  pose proof (main_inv e evs w Hrun) as [_ _ _ Ht Hh _ Hd [cs [Ho Hcs]]].
  split; [exact Hh|]. split; [|split; [exact Hd|split; [|split; [|split]]]].
  - intros img Hin. rewrite Ho in Hin. apply in_app_or in Hin as [Hin|Hin].
    + unfold init_calls in Hin. destruct (sound_error e); cbn in Hin.
      * destruct Hin as [?|[?|[?|[]]]]; discriminate.
      * destruct Hin as [?|[?|[]]]; discriminate.
    + rewrite List.Forall_forall in Hcs. exact (Hcs _ Hin).
  - intros cb Hin. destruct (roll_button w).
    + rewrite Ht in Hin. destruct Hin.
    + destruct Ht as (f & c & Ht & Hf & _). rewrite Ht in Hin.
      destruct Hin as [<-|[]]. exact Hf.
  - apply draw_is_face.
  - unfold frame_faces. apply List.Forall_forall. intros f Hin.
    apply in_map_iff in Hin as [i [<- _]]. apply draw_is_face.
  - intros v w' Hr. rewrite randint_1_6 in Hr. injection Hr as <- _.
    apply draw_is_face.
Qed.

Lemma outcomes_are_faces_witness :
  let evs := [Click; TimerFire; Click; TimerFire] in
  let w := mainloop evs (init_world test_env) in
  main test_env evs = (Val tt, w)
  /\ Forall is_face (history w)
  /\ is_face (final_outcome w).
Proof.
  intros evs w.
  assert (Hrun : main test_env evs = (Val tt, w)) by (vm_compute; reflexivity).
  split; [exact Hrun|].
  pose proof (outcomes_are_faces test_env evs w Hrun) as H.
  destruct H as (H1 & _ & _ & _ & H2 & _). split; [exact H1|exact H2].
Defined.

(** C7. The code does not keep this one.  When dice_sound.mp3 is not
    there, [pygame.mixer.Sound] raises FileNotFoundError, which the
    [except pygame.error] of [__init__] does not catch: start-up ends
    with that exception after the mixer was initialised and the load
    attempted.  No warning is printed, no image is read, no widget is
    built and no event is ever served, so no roll completes; the
    failure the claim calls non-fatal is fatal. *)
Theorem sound_file_missing_is_fatal e :
  mixer_error e = None -> sound_missing e = true ->
  exists w,
    (forall evs,
        main e evs = (Raise (FileNotFoundError "dice_sound.mp3"), w))
    /\ out w = [MixerInit; MixerSound "dice_sound.mp3"]
    /\ (forall text, ~ In (Print text) (out w))
    /\ roll_sound w = None /\ dice_images w = ∅ /\ dice_label w = None
    /\ history w = [] /\ timers w = [].
Proof.
  intros Hm Hs. exists (no_sound_world e). split.
  - intros evs. unfold main. rewrite (init_no_sound e Hm Hs). reflexivity.
  - repeat split. intros text [H|[H|[]]]; discriminate.
Qed.

Lemma sound_file_missing_is_fatal_witness :
  mixer_error missing_sound_env = None
  /\ sound_missing missing_sound_env = true
  /\ images_readableb missing_sound_env = true
  /\ exists w,
       forall evs,
         main missing_sound_env evs
         = (Raise (FileNotFoundError "dice_sound.mp3"), w).
Proof.
  split; [reflexivity|]. split; [reflexivity|].
  split; [vm_compute; reflexivity|].
  destruct (sound_file_missing_is_fatal missing_sound_env eq_refl eq_refl)
    as (w & Hw & _).
  exists w. exact Hw.
Defined.






(** C10. After start-up, and for as long as no click has been made,
    the dice label shows the image of face 1, read from
    images/dice1.png, the history is empty and the history label shows
    the bare header. *)
Theorem initial_face_is_one e evs w :
  main e evs = (Val tt, w) -> Forall (fun ev => ev <> Click) evs ->
  dice_label w = Some (face_image 1)
  /\ image_file (face_image 1) = "images/dice1.png"
  /\ history w = []
  /\ history_label w = history_header.
Proof.
  intros Hrun Hevs. apply main_returns in Hrun. subst w.
  destruct (mainloop_without_click evs (init_world e) Hevs eq_refl)
    as (H1 & H2 & H3).
  rewrite H1, H2, H3. repeat split.
Qed.

Lemma initial_face_is_one_witness :
  let evs := [TimerFire; Close; TimerFire] in
  let w := mainloop evs (init_world test_env) in
  main test_env evs = (Val tt, w)
  /\ Forall (fun ev => ev <> Click) evs
  /\ dice_label w = Some (face_image 1)
  /\ history w = [].
Proof.
  intros evs w.
  assert (Hrun : main test_env evs = (Val tt, w)) by (vm_compute; reflexivity).
  assert (Hevs : Forall (fun ev => ev <> Click) evs)
    by (repeat constructor; discriminate).
  split; [exact Hrun|]. split; [exact Hevs|].
  destruct (initial_face_is_one test_env evs w Hrun Hevs) as (H1 & _ & H2 & _).
  split; [exact H1|exact H2].
Defined.

(** * Further properties *)

(** ** The effect of a frame, a commit and a start, field by field *)

Lemma count_calls_app p cs1 cs2 :
  count_calls p (cs1 ++ cs2) = (count_calls p cs1 + count_calls p cs2)%nat.
Proof. unfold count_calls. now rewrite List.filter_app, length_app. Qed.

Lemma outcomes_snoc e n :
  outcomes e 0 (S n) = outcomes e 0 n ++ [draw e (6 * n)].
Proof.
  unfold outcomes. rewrite seq_S, map_app. cbn [map Nat.add].
  now rewrite Nat.add_0_r.
Qed.

Lemma all_images_lookup_outside i : ~ is_face i -> all_images !! i = None.
Proof.
  unfold is_face. intros Hi. unfold all_images, store_image. cbn [fold_left].
  rewrite !lookup_insert_ne by lia. apply lookup_empty.
Qed.

Lemma init_world_ledger e : Ledger e (init_world e).
Proof.
  split; cbn; try reflexivity.
  - intros cb [].
  - unfold init_calls. destruct (sound_error e); reflexivity.
  - unfold init_calls, init_sound. destruct (sound_error e); reflexivity.
  - unfold init_calls. destruct (sound_error e); reflexivity.
Qed.

(** ** The ledger holds between any two events *)

Ltac count_calls_tac :=
  rewrite ?count_calls_app, ?length_app; try unfold count_calls in *;
  cbn [List.filter is_disable is_play is_quit length app];
  cbn [cb_count cb_final_face] in *;
  try lia.

Lemma frame_from_click_ledger e w :
  Inv e w -> Ledger e w -> roll_button w = normal ->
  Ledger e (frame (final_outcome w) 5 (start w)).
Proof.
  intros [He Hs Himg Ht _ _ _ _] [Li Lc Lh Lp Ld Ls Lpl Lq] Hb.
  rewrite Hb in Ht.
  unfold rolls_started, draws_in_flight in *.
  unfold frame, start, final_outcome.
  destruct w as [e0 n rs h di dl rb hl tm al o].
  cbn -[Nat.mul count_calls outcomes] in He, Hs, Ht, Hb, Li, Lc, Lh, Lp, Ld, Ls, Lpl, Lq.
  subst e0 tm rb rs.
  assert (Hn : n = (6 * length h)%nat) by lia.
  destruct (init_sound e) as [s|] eqn:Hsnd; cbv beta iota in Lpl;
    split; cbn -[Nat.mul count_calls outcomes]; rewrite ?Hsnd;
    try assumption; try discriminate.
  all: try count_calls_tac.
  all: intros cb [<-|[]]; cbn -[Nat.mul]; congruence.
Qed.

Lemma frame_from_timer_ledger e w f c :
  Inv e w -> Ledger e w -> timers w = [mkCallback f c] -> c - 1 > 0 ->
  1 <= c <= 5 ->
  Ledger e (frame f (c - 1) (set_timers [] w)).
Proof.
  intros [He Hs Himg Ht _ _ _ _] [Li Lc Lh Lp Ld Ls Lpl Lq] Htm Hc Hc'.
  assert (Hb : roll_button w = disabled).
  { destruct (roll_button w); [|reflexivity]. rewrite Htm in Ht. discriminate. }
  unfold rolls_started, draws_in_flight in *.
  unfold frame, final_outcome.
  destruct w as [e0 n rs h di dl rb hl tm al o].
  cbn -[Nat.mul count_calls outcomes] in He, Hs, Htm, Hb, Li, Lc, Lh, Lp, Ld, Ls, Lpl, Lq.
  subst e0 tm rb.
  split; cbn -[Nat.mul count_calls outcomes]; try assumption; try discriminate.
  all: try count_calls_tac.
  all: try (destruct (init_sound e); lia).
  intros cb [<-|[]]. cbn -[Nat.mul]. apply (Lp (mkCallback f c)). now left.
Qed.

Lemma commit_ledger e w f c :
  Inv e w -> Ledger e w -> timers w = [mkCallback f c] -> c - 1 <= 0 ->
  1 <= c <= 5 ->
  Ledger e (commit f (set_timers [] w)).
Proof.
  intros [He Hs Himg Ht _ _ _ _] [Li Lc Lh Lp Ld Ls Lpl Lq] Htm Hc Hc'.
  assert (Hf : f = draw e (6 * length (history w))).
  { apply (Lp (mkCallback f c)). rewrite Htm. now left. }
  unfold rolls_started, draws_in_flight in *.
  unfold commit.
  destruct w as [e0 n rs h di dl rb hl tm al o].
  cbn -[Nat.mul count_calls outcomes] in He, Hs, Htm, Hf, Li, Lc, Lh, Lp, Ld, Ls, Lpl, Lq.
  subst e0 tm. cbn [cb_count cb_final_face] in *.
  split; cbn -[Nat.mul count_calls outcomes]; try assumption.
  - rewrite length_app. cbn [length]. lia.
  - rewrite length_app. cbn [length]. rewrite Nat.add_1_r, outcomes_snoc.
    rewrite <- Lh, <- Hf. reflexivity.
  - intros cb [].
  - intros _. now rewrite List.last_last.
  - count_calls_tac.
  - count_calls_tac. destruct (init_sound e); lia.
  - count_calls_tac.
Qed.

Lemma handle_ledger e ev w :
  Inv e w -> Ledger e w -> alive w = true -> Ledger e (handle ev w).
Proof.
  intros Hinv Hled Hal. pose proof Hinv as [He Hs Himg Ht _ _ _ _].
  destruct ev.
  - destruct (roll_button w) eqn:Hb.
    + rewrite handle_click_idle by assumption.
      apply frame_from_click_ledger; assumption.
    + rewrite handle_click_busy by assumption. exact Hled.
  - destruct (roll_button w) eqn:Hb.
    + unfold handle. rewrite Ht. exact Hled.
    + destruct Ht as (f & c & Ht & Hf & Hc).
      destruct (Z_gt_le_dec (c - 1) 0) as [Hgt|Hle].
      * rewrite (handle_timer_frame w f c []) by assumption.
        apply frame_from_timer_ledger; assumption.
      * rewrite (handle_timer_commit w f c []) by assumption.
        apply (commit_ledger e w f c); assumption.
  - destruct Hled as [Li Lc Lh Lp Ld Ls Lpl Lq].
    unfold rolls_started, draws_in_flight in *.
    unfold handle, dispatch, destroy. unfold_methods.
    destruct w as [e0 n rs h di dl rb hl tm al o].
    cbn -[Nat.mul count_calls outcomes] in Hal, Li, Lc, Lh, Lp, Ld, Ls, Lpl, Lq |- *.
    subst al.
    split; cbn -[Nat.mul count_calls outcomes]; try assumption.
    all: count_calls_tac.
Qed.

Lemma mainloop_ledger e evs w :
  Inv e w -> Ledger e w -> Ledger e (mainloop evs w).
Proof.
  revert w. induction evs as [|ev evs IH]; intros w Hinv Hled; cbn [mainloop].
  - exact Hled.
  - destruct (alive w) eqn:Hal; [|exact Hled].
    apply IH; [apply handle_inv, Hinv|apply handle_ledger; assumption].
Qed.

Lemma main_ledger e evs w : main e evs = (Val tt, w) -> Ledger e w.
Proof.
  intros Hrun. apply main_returns in Hrun. subst w.
  apply mainloop_ledger; [apply init_world_inv|apply init_world_ledger].
Qed.

(** ** An animation from any point to its end *)

Lemma frame_after_timer w f c :
  timers w = [mkCallback f (c + 1)] -> images_loaded w ->
  let w1 := frame f c (set_timers [] w) in
  timers w1 = [mkCallback f c] /\ images_loaded w1 /\ alive w1 = alive w
  /\ history w1 = history w /\ env w1 = env w /\ cursor w1 = S (cursor w)
  /\ out w1 = out w ++ [DiceLabelConfig (face_image (final_outcome w));
                        After 100 (mkCallback f c)].
Proof.
  intros Ht Himg. unfold frame, final_outcome.
  destruct w as [e n rs h di dl rb hl tm al o]. cbn.
  repeat split; try assumption. now rewrite <- app_assoc.
Qed.

Lemma commit_after_timer w f :
  let w1 := commit f (set_timers [] w) in
  history w1 = history w ++ [f] /\ roll_button w1 = normal /\ timers w1 = []
  /\ dice_label w1 = Some (face_image f) /\ cursor w1 = cursor w
  /\ alive w1 = alive w
  /\ history_label w1 = history_text (history w ++ [f])
  /\ out w1 = out w ++ commit_calls (history w) f.
Proof.
  unfold commit, commit_calls. destruct w as [e n rs h di dl rb hl tm al o].
  cbn. repeat split. now rewrite <- !app_assoc.
Qed.

(** With [S n] left in the pending callback, [S n] timer events end
    the animation: [n] more frames are shown, then the outcome is
    committed. *)
Lemma animation_finishes n :
  forall w f,
    alive w = true -> images_loaded w -> is_face f ->
    timers w = [mkCallback f (Z.of_nat (S n))] ->
    let w' := mainloop (repeat TimerFire (S n)) w in
    history w' = history w ++ [f] /\ roll_button w' = normal
    /\ timers w' = [] /\ dice_label w' = Some (face_image f)
    /\ cursor w' = (cursor w + n)%nat /\ alive w' = true
    /\ history_label w' = history_text (history w ++ [f])
    /\ exists cs,
         out w' = out w ++ cs
         /\ face_updates cs
            = map (fun i => face_image (draw (env w) i)) (seq (cursor w) n)
              ++ [face_image f].
Proof.
  induction n as [|n IH]; intros w f Hal Himg Hf Ht.
  - cbn [repeat mainloop]. rewrite Hal.
    rewrite (handle_timer_commit w f (Z.of_nat 1) [])
      by (try assumption; cbn; lia).
    destruct (commit_after_timer w f) as (H1 & H2 & H3 & H4 & H5 & H6 & H7 & H8).
    cbv zeta. rewrite H1, H2, H3, H4, H5, H6, H7, H8, Hal, Nat.add_0_r.
    repeat split. exists (commit_calls (history w) f). split; reflexivity.
  - change (repeat TimerFire (S (S n)))
      with (TimerFire :: repeat TimerFire (S n)).
    cbn [mainloop]. rewrite Hal.
    assert (Hc : Z.of_nat (S (S n)) = Z.of_nat (S n) + 1) by lia.
    rewrite (handle_timer_frame w f (Z.of_nat (S (S n))) [])
      by (try assumption; lia).
    replace (Z.of_nat (S (S n)) - 1) with (Z.of_nat (S n)) by lia.
    rewrite Hc in Ht.
    destruct (frame_after_timer w f (Z.of_nat (S n)) Ht Himg)
      as (T1 & T2 & T3 & T4 & T5 & T6 & T7).
    assert (Hal1 : alive (frame f (Z.of_nat (S n)) (set_timers [] w)) = true)
      by congruence.
    destruct (IH (frame f (Z.of_nat (S n)) (set_timers [] w)) f Hal1 T2 Hf T1)
      as (H1 & H2 & H3 & H4 & H5 & H6 & H7 & cs & H8 & H9).
    cbv zeta. rewrite H1, H2, H3, H4, H5, H6, H7, T4, T6.
    repeat split; try lia.
    exists ([DiceLabelConfig (face_image (final_outcome w));
             After 100 (mkCallback f (Z.of_nat (S n)))] ++ cs).
    split.
    + rewrite H8, T7, <- app_assoc. reflexivity.
    + cbn [app face_updates flat_map]. fold (face_updates cs).
      rewrite H9, T5, T6. reflexivity.
Qed.

(** ** Events spent on the history *)

Lemma handle_spends e ev w :
  Inv e w ->
  (5 * length (history (handle ev w)) + ticks_in_flight (handle ev w)
   <= 5 * length (history w) + ticks_in_flight w
      + if is_timer ev then 1 else 0)%nat
  /\ (rolls_started (handle ev w)
      <= rolls_started w + if is_click ev then 1 else 0)%nat.
Proof.
  intros [He Hs Himg Ht _ _ _ _]. unfold ticks_in_flight, rolls_started.
  destruct ev; cbn [is_timer is_click].
  - destruct (roll_button w) eqn:Hb.
    + rewrite handle_click_idle by assumption. rewrite Ht.
      unfold frame, start. destruct w as [e0 n rs h di dl rb hl tm al o].
      cbn in Ht. subst tm. destruct rs; cbn -[Nat.mul]; split; lia.
    + rewrite handle_click_busy by assumption. lia.
  - destruct (roll_button w) eqn:Hb.
    + unfold handle. rewrite Ht. cbv beta iota. rewrite Ht. lia.
    + destruct Ht as (f & c & Ht & Hf & Hc).
      destruct (Z_gt_le_dec (c - 1) 0) as [Hgt|Hle].
      * rewrite (handle_timer_frame w f c []) by assumption. rewrite Ht.
        unfold frame. destruct w as [e0 n rs h di dl rb hl tm al o].
        cbn -[Nat.mul]. lia.
      * rewrite (handle_timer_commit w f c []) by assumption. rewrite Ht.
        unfold commit. destruct w as [e0 n rs h di dl rb hl tm al o].
        cbn -[Nat.mul]. rewrite length_app. cbn -[Nat.mul]. lia.
  - unfold handle, dispatch, destroy. unfold_methods.
    destruct w as [e0 n rs h di dl rb hl tm al o]. cbn -[Nat.mul]. lia.
Qed.

Lemma mainloop_spends e evs w :
  Inv e w ->
  (5 * length (history (mainloop evs w)) + ticks_in_flight (mainloop evs w)
   <= 5 * length (history w) + ticks_in_flight w
      + count_events is_timer evs)%nat
  /\ (rolls_started (mainloop evs w)
      <= rolls_started w + count_events is_click evs)%nat.
Proof.
  revert w. induction evs as [|ev evs IH]; intros w Hinv; cbn [mainloop].
  - unfold count_events. cbn. lia.
  - destruct (alive w); [|lia].
    destruct (IH (handle ev w) (handle_inv e ev w Hinv)) as [H1 H2].
    destruct (handle_spends e ev w Hinv) as [H3 H4].
    unfold count_events in *. cbn [List.filter].
    destruct ev; cbn [is_timer is_click length] in *; lia.
Qed.

(** ** The window and the mixer *)

Lemma handle_keeps_alive e ev w :
  Inv e w -> is_close ev = false -> alive (handle ev w) = alive w.
Proof.
  intros [He Hs Himg Ht _ _ _ _] Hev. destruct ev; [| |discriminate].
  - destruct (roll_button w) eqn:Hb.
    + rewrite handle_click_idle by assumption.
      unfold frame, start. destruct w as [e0 n rs h di dl rb hl tm al o].
      destruct rs; reflexivity.
    + rewrite handle_click_busy by assumption. reflexivity.
  - destruct (roll_button w) eqn:Hb.
    + unfold handle. rewrite Ht. reflexivity.
    + destruct Ht as (f & c & Ht & Hf & Hc).
      destruct (Z_gt_le_dec (c - 1) 0) as [Hgt|Hle].
      * rewrite (handle_timer_frame w f c []) by assumption.
        destruct w; reflexivity.
      * rewrite (handle_timer_commit w f c []) by assumption.
        destruct w; reflexivity.
Qed.

Lemma handle_close w :
  alive (handle Close w) = false
  /\ out (handle Close w) = out w ++ [MixerQuit; TkDestroy].
Proof.
  unfold handle, dispatch, destroy. unfold_methods.
  destruct w as [e0 n rs h di dl rb hl tm al o]. cbn.
  split; [reflexivity|]. now rewrite <- app_assoc.
Qed.

Lemma mainloop_alive e evs w :
  Inv e w ->
  alive (mainloop evs w) = alive w && negb (existsb is_close evs)
  /\ (alive w = true -> alive (mainloop evs w) = false ->
      exists o, out (mainloop evs w) = o ++ [MixerQuit; TkDestroy]).
Proof.
  revert w. induction evs as [|ev evs IH]; intros w Hinv; cbn [mainloop existsb].
  - split; [now rewrite andb_true_r|]. congruence.
  - destruct (alive w) eqn:Hal; [|split; [now rewrite Hal|discriminate]].
    destruct (IH (handle ev w) (handle_inv e ev w Hinv)) as [IH1 IH2].
    destruct (is_close ev) eqn:Hev.
    + destruct ev; try discriminate.
      destruct (handle_close w) as [Hc1 Hc2].
      assert (Hstop : mainloop evs (handle Close w) = handle Close w).
      { destruct evs; cbn [mainloop]; [reflexivity|]. now rewrite Hc1. }
      rewrite Hstop, Hc1. split; [reflexivity|].
      intros _ _. exists (out w). exact Hc2.
    + rewrite (handle_keeps_alive e ev w Hinv Hev), Hal in IH1, IH2.
      split; [exact IH1|]. intros _. apply IH2. reflexivity.
Qed.

Lemma set_timers_same w : set_timers (timers w) w = w.
Proof. destruct w; reflexivity. Qed.

Lemma frame_fields w f c :
  let w1 := frame f c w in
  timers w1 = timers w ++ [mkCallback f c]
  /\ dice_images w1 = dice_images w /\ alive w1 = alive w
  /\ history w1 = history w /\ env w1 = env w /\ cursor w1 = S (cursor w)
  /\ out w1 = out w ++ [DiceLabelConfig (face_image (final_outcome w));
                        After 100 (mkCallback f c)].
Proof.
  unfold frame, final_outcome.
  destruct w as [e n rs h di dl rb hl tm al o]. cbn.
  repeat split. now rewrite <- app_assoc.
Qed.

(** * Further theorems *)

(** X1. While the program runs the table of images holds exactly the
    six keys 1 to 6, key [i] bound to the image read from
    images/dice[i].png; no other key is ever bound. *)
Theorem dice_images_are_the_six_faces e evs w i :
  main e evs = (Val tt, w) ->
  dice_images w !! i
  = if (1 <=? i) && (i <=? 6) then Some (mkPhotoImage (dice_png i)) else None.
Proof.
  intros Hrun. rewrite (led_images e w (main_ledger e evs w Hrun)).
  destruct (Z.leb_spec 1 i), (Z.leb_spec i 6); cbn [andb].
  - apply all_images_lookup. split; assumption.
  - apply all_images_lookup_outside. unfold is_face. lia.
  - apply all_images_lookup_outside. unfold is_face. lia.
  - apply all_images_lookup_outside. unfold is_face. lia.
Qed.

Lemma dice_images_are_the_six_faces_witness :
  main test_env [Click] = (Val tt, mainloop [Click] (init_world test_env))
  /\ dice_images (mainloop [Click] (init_world test_env)) !! 7 = None.
Proof.
  assert (Hrun : main test_env [Click]
                 = (Val tt, mainloop [Click] (init_world test_env)))
    by (vm_compute; reflexivity).
  split; [exact Hrun|].
  exact (dice_images_are_the_six_faces test_env [Click] _ 7 Hrun).
Defined.





(** X4. While the window is open, an animation in flight always ends:
    with count [c] in the pending callback, [c] more timer events show
    [c - 1] more frames and then commit the outcome the callback
    carries, show it, and enable the button. *)
Theorem animation_runs_to_completion e evs w f c :
  main e evs = (Val tt, w) -> alive w = true ->
  timers w = [mkCallback f c] ->
  let w' := mainloop (repeat TimerFire (Z.to_nat c)) w in
  history w' = history w ++ [f] /\ roll_button w' = normal
  /\ timers w' = [] /\ dice_label w' = Some (face_image f)
  /\ history_label w' = history_text (history w ++ [f])
  /\ cursor w' = (cursor w + (Z.to_nat c - 1))%nat.
Proof.
  intros Hrun Hal Htm.
  pose proof (main_inv e evs w Hrun) as [_ _ Himg Ht _ _ _ _].
  destruct (roll_button w); [rewrite Htm in Ht; discriminate|].
  destruct Ht as (f' & c' & Ht & Hf & Hc). rewrite Htm in Ht.
  injection Ht as <- <-.
  assert (Hn : exists n, Z.to_nat c = S n /\ c = Z.of_nat (S n)).
  { exists (Z.to_nat c - 1)%nat. lia. }
  destruct Hn as (n & Hn & Hcn). rewrite Hn.
  replace (S n - 1)%nat with n by lia.
  destruct (animation_finishes n w f Hal Himg Hf)
    as (H1 & H2 & H3 & H4 & H5 & _ & H7 & _).
  { rewrite Htm, Hcn. reflexivity. }
  cbv zeta. auto 10.
Qed.

Lemma animation_runs_to_completion_witness :
  let evs := [Click; TimerFire; TimerFire] in
  let w := mainloop evs (init_world test_env) in
  main test_env evs = (Val tt, w)
  /\ timers w = [mkCallback 1 3]
  /\ history (mainloop (repeat TimerFire (Z.to_nat 3)) w) = history w ++ [1].
Proof.
  intros evs w.
  assert (Hrun : main test_env evs = (Val tt, w)) by (vm_compute; reflexivity).
  assert (Htm : timers w = [mkCallback 1 3]) by (vm_compute; reflexivity).
  split; [exact Hrun|]. split; [exact Htm|].
  exact (proj1 (animation_runs_to_completion test_env evs w 1 3
                  Hrun eq_refl Htm)).
Defined.

(** X5. [animate_roll] shows as many frames as its count says: entered
    with count [n] while no callback is pending, it needs [n] timer
    events, draws [n] numbers, shows their faces in the order drawn and
    then the final face, and appends the final face to the history.
    A count of zero or less commits at once, as count zero does. *)
Theorem animate_roll_shows_count_frames e evs w f n :
  main e evs = (Val tt, w) -> alive w = true -> roll_button w = normal ->
  is_face f ->
  let w' := mainloop (repeat TimerFire n)
              (dispatch (animate_roll f (Z.of_nat n)) w) in
  history w' = history w ++ [f]
  /\ cursor w' = (cursor w + n)%nat
  /\ timers w' = []
  /\ (exists cs,
        out w' = out w ++ cs
        /\ face_updates cs
           = map (fun i => face_image (draw e i)) (seq (cursor w) n)
             ++ [face_image f])
  /\ (forall c, c <= 0 -> animate_roll f c w = animate_roll f 0 w).
Proof.
  intros Hrun Hal Hb Hf.
  destruct (running_idle e evs w Hrun Hb) as [Ht Himg].
  pose proof (inv_env e w (main_inv e evs w Hrun)) as He.
  assert (Hneg : forall c, c <= 0 -> animate_roll f c w = animate_roll f 0 w).
  { intros c Hc. now rewrite !animate_roll_commit by (auto; lia). }
  destruct n as [|n]; cbv zeta.
  - cbn [repeat mainloop Z.of_nat]. unfold dispatch.
    rewrite animate_roll_commit by (auto; lia).
    destruct (commit_after_timer w f) as (H1 & _ & H3 & _ & H5 & _ & _ & H8).
    rewrite <- Ht, set_timers_same in H1, H3, H5, H8.
    rewrite H1, H3, H5, H8, Nat.add_0_r. repeat split; try assumption.
    exists (commit_calls (history w) f). split; reflexivity.
  - unfold dispatch. rewrite animate_roll_frame by (auto; lia).
    destruct (frame_fields w f (Z.of_nat (S n)))
      as (T1 & T2 & T3 & T4 & T5 & T6 & T7).
    rewrite Ht in T1.
    destruct (animation_finishes n (frame f (Z.of_nat (S n)) w) f)
      as (H1 & _ & H3 & _ & H5 & _ & _ & cs & H8 & H9).
    + congruence.
    + unfold images_loaded. rewrite T2. exact Himg.
    + exact Hf.
    + exact T1.
    + rewrite H1, H3, H5, T4, T6. repeat split; try assumption; try lia.
      exists ([DiceLabelConfig (face_image (final_outcome w));
               After 100 (mkCallback f (Z.of_nat (S n)))] ++ cs).
      split.
      * rewrite H8, T7, <- app_assoc. reflexivity.
      * cbn [app face_updates flat_map]. fold (face_updates cs).
        rewrite H9, T5, T6. unfold final_outcome. rewrite He. reflexivity.
Qed.

Lemma animate_roll_shows_count_frames_witness :
  let w := init_world test_env in
  main test_env [] = (Val tt, w)
  /\ history (mainloop (repeat TimerFire 2)
                (dispatch (animate_roll 3 (Z.of_nat 2)) w))
     = history w ++ [3].
Proof.
  intros w.
  assert (Hrun : main test_env [] = (Val tt, w)) by (vm_compute; reflexivity).
  split; [exact Hrun|].
  assert (Hf : is_face 3) by (unfold is_face; lia).
  exact (proj1 (animate_roll_shows_count_frames test_env [] w 3 2
                  Hrun eq_refl eq_refl Hf)).
Defined.

(** X6. While the program runs the history is fixed by the generator
    alone: its k-th entry (from 0) is draw number 6k, however the
    clicks and timer events were interleaved.  The generator has made
    six draws per committed roll plus those of the roll in flight, and
    the pending callback carries the draw that will be committed next. *)
Theorem history_is_every_sixth_draw e evs w :
  main e evs = (Val tt, w) ->
  history w = outcomes e 0 (length (history w))
  /\ cursor w = (6 * length (history w) + draws_in_flight w)%nat
  /\ (forall cb, In cb (timers w) ->
        cb_final_face cb = draw e (6 * length (history w))).
Proof.
  intros Hrun. destruct (main_ledger e evs w Hrun) as [_ Lc Lh Lp _ _ _ _].
  auto.
Qed.

Lemma history_is_every_sixth_draw_witness :
  let evs := roll_events [0; 1; 0; 0; 2]%nat ++ [Click; TimerFire] in
  let w := mainloop evs (init_world test_env) in
  main test_env evs = (Val tt, w)
  /\ history w = outcomes test_env 0 (length (history w)).
Proof.
  intros evs w.
  assert (Hrun : main test_env evs = (Val tt, w)) by (vm_compute; reflexivity).
  split; [exact Hrun|].
  exact (proj1 (history_is_every_sixth_draw test_env evs w Hrun)).
Defined.

(** X7. Nothing is committed for free: while the program runs the
    history has at most as many entries as clicks were made, and five
    timer events were spent on each entry. *)
Theorem commits_need_clicks_and_ticks e evs w :
  main e evs = (Val tt, w) ->
  (length (history w) <= count_events is_click evs)%nat
  /\ (5 * length (history w) <= count_events is_timer evs)%nat.
Proof.
  intros Hrun. apply main_returns in Hrun. subst w.
  destruct (mainloop_spends e evs (init_world e) (init_world_inv e)) as [H1 H2].
  unfold rolls_started, ticks_in_flight in H1, H2.
  cbn [init_world history timers length] in H1, H2. lia.
Qed.

Lemma commits_need_clicks_and_ticks_witness :
  let evs := [TimerFire; Click; Click; TimerFire; TimerFire; TimerFire;
              TimerFire; TimerFire; TimerFire] in
  let w := mainloop evs (init_world test_env) in
  main test_env evs = (Val tt, w)
  /\ (length (history w) <= count_events is_click evs)%nat.
Proof.
  intros evs w.
  assert (Hrun : main test_env evs = (Val tt, w)) by (vm_compute; reflexivity).
  split; [exact Hrun|].
  exact (proj1 (commits_need_clicks_and_ticks test_env evs w Hrun)).
Defined.

(** X8. Whenever the roll button is enabled the die shows the last
    committed outcome, or face 1 while the history is empty. *)
Theorem idle_face_is_last_outcome e evs w :
  main e evs = (Val tt, w) -> roll_button w = normal ->
  dice_label w = Some (face_image (List.last (history w) 1)).
Proof.
  intros Hrun. apply (led_idle e w (main_ledger e evs w Hrun)).
Qed.

Lemma idle_face_is_last_outcome_witness :
  let evs := roll_events [0; 0; 0; 0; 0]%nat ++ roll_events [0; 0; 0; 0; 0]%nat in
  let w := mainloop evs (init_world counting_env) in
  main counting_env evs = (Val tt, w)
  /\ roll_button w = normal
  /\ dice_label w = Some (face_image (List.last (history w) 1)).
Proof.
  intros evs w.
  assert (Hrun : main counting_env evs = (Val tt, w))
    by (vm_compute; reflexivity).
  assert (Hb : roll_button w = normal) by (vm_compute; reflexivity).
  split; [exact Hrun|]. split; [exact Hb|].
  exact (idle_face_is_last_outcome counting_env evs w Hrun Hb).
Defined.

(** X9. The mixer is shut down exactly when the window is closed: while
    the window is open [pygame.mixer.quit] has not been called, and
    once it is closed it has been called once, immediately before the
    window was destroyed, as the last thing the program did.  The
    window is closed exactly when a close event was among the events. *)
Theorem mixer_quits_when_window_closes e evs w :
  main e evs = (Val tt, w) ->
  count_calls is_quit (out w) = (if alive w then 0 else 1)%nat
  /\ alive w = negb (existsb is_close evs)
  /\ (alive w = false -> exists o, out w = o ++ [MixerQuit; TkDestroy]).
Proof.
  intros Hrun. pose proof (led_quit e w (main_ledger e evs w Hrun)) as Hq.
  apply main_returns in Hrun. subst w.
  destruct (mainloop_alive e evs (init_world e) (init_world_inv e)) as [H1 H2].
  split; [exact Hq|]. split; [exact H1|]. apply H2. reflexivity.
Qed.

Lemma mixer_quits_when_window_closes_witness :
  let evs := [Click; TimerFire; Close; TimerFire; Click] in
  let w := mainloop evs (init_world test_env) in
  main test_env evs = (Val tt, w)
  /\ count_calls is_quit (out w) = (if alive w then 0 else 1)%nat.
Proof.
  intros evs w.
  assert (Hrun : main test_env evs = (Val tt, w)) by (vm_compute; reflexivity).
  split; [exact Hrun|].
  exact (proj1 (mixer_quits_when_window_closes test_env evs w Hrun)).
Defined.

(** X10. While the program runs the button has been disabled once per
    roll begun (the committed ones and the one in flight), and the
    sound has been played once per roll begun when the sound file
    loaded at start-up, never otherwise; [roll_sound] is still what
    start-up made it, the loaded sound or None. *)
Theorem sound_plays_once_per_roll e evs w :
  main e evs = (Val tt, w) ->
  count_calls is_disable (out w) = rolls_started w
  /\ count_calls is_play (out w)
     = match sound_error e with
       | None => rolls_started w
       | Some _ => 0%nat
       end
  /\ roll_sound w
     = match sound_error e with
       | None => Some (mkSound "dice_sound.mp3")
       | Some _ => None
       end.
Proof.
  intros Hrun. destruct (main_ledger e evs w Hrun) as [_ _ _ _ _ Ls Lp _].
  pose proof (inv_sound e w (main_inv e evs w Hrun)) as Hs.
  split; [exact Ls|]. rewrite Lp, Hs. unfold init_sound.
  destruct (sound_error e); split; reflexivity.
Qed.

Lemma sound_plays_once_per_roll_witness :
  let evs := roll_events [1; 0; 0; 2; 0]%nat ++ [Click; Click] in
  let w := mainloop evs (init_world test_env) in
  main test_env evs = (Val tt, w)
  /\ count_calls is_play (out w) = 2%nat.
Proof.
  intros evs w.
  assert (Hrun : main test_env evs = (Val tt, w)) by (vm_compute; reflexivity).
  split; [exact Hrun|].
  pose proof (proj1 (proj2 (sound_plays_once_per_roll test_env evs w Hrun)))
    as H.
  vm_compute in H. vm_compute. exact H.
Defined.


(** X12. Once the event loop runs the program only configures its
    three widgets, plays the sound, re-arms the timer and, on close,
    shuts down: after the calls of start-up it never prints, never
    initialises the mixer or loads a sound again, and every timer it
    arms has a delay of 100 ms and a count from 1 to 5. *)
Theorem event_loop_calls_are_bounded e evs w :
  main e evs = (Val tt, w) ->
  exists cs,
    out w = init_calls e ++ cs
    /\ (forall c, In c cs ->
          match c with
          | Print _ | MixerInit | MixerSound _ => False
          | After ms cb => ms = 100 /\ 1 <= cb_count cb <= 5
          | _ => True
          end).
Proof.
  intros Hrun.
  destruct (inv_out e w (main_inv e evs w Hrun)) as [cs [Ho Hcs]].
  exists cs. split; [exact Ho|].
  intros c Hin. rewrite List.Forall_forall in Hcs. specialize (Hcs c Hin).
  destruct c; cbn in Hcs |- *; try exact I; try contradiction.
  tauto.
Qed.

Lemma event_loop_calls_are_bounded_witness :
  let evs := [Click; TimerFire; Close] in
  let w := mainloop evs (init_world silent_env) in
  main silent_env evs = (Val tt, w)
  /\ exists cs, out w = init_calls silent_env ++ cs.
Proof.
  intros evs w.
  assert (Hrun : main silent_env evs = (Val tt, w)) by (vm_compute; reflexivity).
  split; [exact Hrun|].
  destruct (event_loop_calls_are_bounded silent_env evs w Hrun) as [cs [Ho _]].
  exists cs. exact Ho.
Defined.

(** X13. When the sound file is there and loading it raises
    [pygame.error], the failure is not fatal: with the mixer
    initialised and the six images readable the program starts, prints
    "Warning: Could not load 'dice_sound.mp3'. Sound disabled. Error: "
    followed by the error, keeps [roll_sound] at None from then on, and
    after the one attempt of start-up neither loads nor plays a sound
    again.  Every roll still runs to its end: five frames, the outcome
    shown, the history extended by the outcome and displayed, the
    button enabled again. *)
Theorem sound_pygame_error_is_not_fatal e msg evs :
  mixer_error e = None -> sound_missing e = false ->
  sound_error e = Some msg -> images_readableb e = true ->
  exists w,
    main e evs = (Val tt, w)
    /\ roll_sound w = None
    /\ (exists cs,
          out w = [MixerInit; MixerSound "dice_sound.mp3";
                   Print ("Warning: Could not load 'dice_sound.mp3'. Sound disabled. Error: "
                          ++ msg)%string] ++ cs
          /\ Forall sound_free cs)
    /\ (alive w = true -> roll_button w = normal ->
        forall ks, length ks = 5%nat ->
          let w' := mainloop (roll_events ks) w in
          let f := final_outcome w in
          out w' = out w ++ [RollButtonConfig disabled]
                     ++ frame_calls f (frame_faces w)
                     ++ [DiceLabelConfig (face_image f);
                         HistoryLabelConfig (history_text (history w ++ [f]));
                         RollButtonConfig normal]
          /\ history w' = history w ++ [f]
          /\ roll_button w' = normal).
Proof.
  intros Hmx Hsm Hs Hr. apply images_readableb_spec in Hr.
  exists (mainloop evs (init_world e)).
  assert (Hrun : main e evs = (Val tt, mainloop evs (init_world e))).
  { unfold main. rewrite (init_ok e Hmx Hsm Hr). reflexivity. }
  pose proof (main_inv e evs _ Hrun) as [_ Hsnd _ _ _ _ _ [cs [Ho Hcs]]].
  assert (Hnone : init_sound e = None) by (unfold init_sound; now rewrite Hs).
  rewrite Hnone in Hsnd, Hcs.
  split; [exact Hrun|]. split; [exact Hsnd|]. split.
  - exists cs. split.
    + rewrite Ho. unfold init_calls. rewrite Hs. reflexivity.
    + eapply List.Forall_impl; [|exact Hcs].
      intros [] Hc; cbn in Hc |- *; try exact I; try contradiction.
      discriminate.
  - intros Hal Hb ks Hks.
    destruct (running_idle e evs _ Hrun Hb) as [Ht Himg].
    cbv zeta. rewrite roll_completes by assumption.
    unfold after_roll, roll_calls, sound_calls, commit_calls.
    cbn [out history roll_button]. rewrite Hsnd. auto.
Qed.

Lemma sound_pygame_error_is_not_fatal_witness :
  mixer_error silent_env = None /\ sound_missing silent_env = false
  /\ sound_error silent_env = Some "Unrecognized audio format"
  /\ images_readableb silent_env = true
  /\ exists w, main silent_env (roll_events [0; 0; 0; 0; 0]%nat) = (Val tt, w)
               /\ roll_sound w = None.
Proof.
  assert (Hr : images_readableb silent_env = true) by (vm_compute; reflexivity).
  split; [reflexivity|]. split; [reflexivity|]. split; [reflexivity|].
  split; [exact Hr|].
  destruct (sound_pygame_error_is_not_fatal silent_env
              "Unrecognized audio format"
              (roll_events [0; 0; 0; 0; 0]%nat) eq_refl eq_refl eq_refl Hr)
    as (w & Hrun & Hnone & _).
  exists w. split; [exact Hrun|exact Hnone].
Defined.
